(** * Kokoro OpenAI-compatible TTS server: a shallow embedding of [server.py]

    The server is a Flask application with four endpoints.  The embedding
    follows the source function by function:

    - Python values that reach the handlers (the parsed JSON body) are the
      inductive type [pyval];
    - Python exceptions are values of [exn]; a computation that may raise
      returns a [Result];
    - the two module-level globals [tts_pipeline] and [supported_voices] are
      the record [Globals], threaded through a small state-and-exception
      monad [M] that also logs the calls made to the external collaborators
      (model construction, model invocation, encoders);
    - everything that lives outside the repository (the Kokoro model, the
      codec libraries, the ffmpeg process, the string grammar of Python's
      [float]) is a field of the record [World].

    Third-party modules are taken to be importable.  Each function is
    modelled as it runs when nothing else touches the globals meanwhile.
    The server of line 341 is threaded and the globals are not locked, so
    the handling of a request can be overlapped by that of others:
    [create_speech_overlapped] runs other requests between the validation
    of a request and its synthesis, and [load_pipeline_handle] and
    [load_pipeline_voices] are the two assignments of a load taken apart. *)

From Stdlib Require Import ZArith List String Ascii Bool Lia.
From Stdlib Require Import Floats.SpecFloat.
Import ListNotations.
Open Scope string_scope.
Open Scope Z_scope.
Set Warnings "-register-all".

(* ================================================================== *)
(** ** Python values and exceptions *)

Module Py.

(** A value produced by [json.loads]: [None], [bool], [int], [float], [str],
    [list] or [dict].  A [float] is an IEEE-754 binary64 number; a [str] is
    a string whose elements are its characters, so that [len] is its
    length; a [dict] is held as its list of items, looked up by the first
    matching key. *)
Inductive pyval : Type :=
| PNone
| PBool (b : bool)
| PInt (z : Z)
| PFloat (f : spec_float)
| PStr (s : string)
| PList (l : list pyval)
| PDict (d : list (string * pyval)).

(** An exception: its class name and [str(e)]. *)
Record exn : Type := Exn { exn_class : string; exn_str : string }.

Inductive Result (A : Type) : Type :=
| Ok (a : A)
| Raise (e : exn).
Arguments Ok {A} a.
Arguments Raise {A} e.

Definition type_name (v : pyval) : string :=
  match v with
  | PNone => "NoneType"
  | PBool _ => "bool"
  | PInt _ => "int"
  | PFloat _ => "float"
  | PStr _ => "str"
  | PList _ => "list"
  | PDict _ => "dict"
  end.

Definition AttributeError (v : pyval) (attr : string) : exn :=
  Exn "AttributeError"
      ("'" ++ type_name v ++ "' object has no attribute '" ++ attr ++ "'").

Definition TypeError (msg : string) : exn := Exn "TypeError" msg.

(** [bool(v)]: the truth value of a JSON value. *)
Definition truthy (v : pyval) : bool :=
  match v with
  | PNone => false
  | PBool b => b
  | PInt z => negb (z =? 0)
  | PFloat (S754_zero _) => false
  | PFloat _ => true
  | PStr s => negb (String.eqb s "")
  | PList l => match l with [] => false | _ => true end
  | PDict d => match d with [] => false | _ => true end
  end.

(** [v == s] for a string literal [s]: only a [str] equals a [str]. *)
Definition eq_str (v : pyval) (s : string) : bool :=
  match v with
  | PStr t => String.eqb t s
  | _ => false
  end.

(** [v in l] for a list [l] of strings. *)
Definition in_strs (v : pyval) (l : list string) : bool :=
  existsb (eq_str v) l.

Fixpoint assoc (k : string) (d : list (string * pyval)) : option pyval :=
  match d with
  | [] => None
  | (k', v) :: d' => if String.eqb k k' then Some v else assoc k d'
  end.

(** [data.get(key, default)]; only a [dict] has the method. *)
Definition get (data : pyval) (key : string) (default : pyval) : Result pyval :=
  match data with
  | PDict d => Ok (match assoc key d with Some v => v | None => default end)
  | _ => Raise (AttributeError data "get")
  end.

(** ['.' in s] for a string [s]. *)
Fixpoint str_has_dot (s : string) : bool :=
  match s with
  | EmptyString => false
  | String c s' => if Ascii.eqb c "." then true else str_has_dot s'
  end.

(** ['.' in v]. *)
Definition has_dot (v : pyval) : Result bool :=
  match v with
  | PStr s => Ok (str_has_dot s)
  | PList l => Ok (existsb (fun x => eq_str x ".") l)
  | PDict d => Ok (match assoc "." d with Some _ => true | None => false end)
  | _ => Raise (TypeError ("argument of type '" ++ type_name v ++ "' is not iterable"))
  end.

(** Number of distinct keys of an item list. *)
Fixpoint count_keys (d : list (string * pyval)) : nat :=
  match d with
  | [] => O
  | (k, _) :: d' =>
      match assoc k d' with
      | Some _ => count_keys d'
      | None => S (count_keys d')
      end
  end.

(** [len(v)]. *)
Definition len (v : pyval) : Result Z :=
  match v with
  | PStr s => Ok (Z.of_nat (String.length s))
  | PList l => Ok (Z.of_nat (List.length l))
  | PDict d => Ok (Z.of_nat (count_keys d))
  | _ => Raise (TypeError ("object of type '" ++ type_name v ++ "' has no len()"))
  end.

(** [s.split('.', 1)]: at most one cut, at the first dot. *)
Fixpoint str_split_dot1 (s : string) : list string :=
  match s with
  | EmptyString => [EmptyString]
  | String c s' =>
      if Ascii.eqb c "." then [EmptyString; s']
      else match str_split_dot1 s' with
           | p :: rest => String c p :: rest
           | [] => [String c EmptyString]
           end
  end.

(** [v.split('.', 1)]; only a [str] has the method. *)
Definition split_dot1 (v : pyval) : Result (list string) :=
  match v with
  | PStr s => Ok (str_split_dot1 s)
  | _ => Raise (AttributeError v "split")
  end.

(** [l[i]] on a list. *)
Definition index {A : Type} (l : list A) (i : nat) : Result A :=
  match nth_error l i with
  | Some a => Ok a
  | None => Raise (Exn "IndexError" "list index out of range")
  end.

(** [text[:50]] and [len(text)], evaluated while formatting the log line that
    precedes synthesis: a value that is neither sliceable nor sized raises. *)
Definition preview (text : pyval) : Result unit :=
  match text with
  | PStr _ | PList _ => Ok tt
  | PDict _ => Raise (TypeError "unhashable type: 'slice'")
  | _ => Raise (TypeError ("'" ++ type_name text ++ "' object is not subscriptable"))
  end.

(** [repr] of a list of plain identifiers (no quote, no escape). *)
Definition repr_strs (l : list string) : string :=
  "[" ++ String.concat ", " (map (fun s => "'" ++ s ++ "'") l) ++ "]".

End Py.
Import Py.

(* ================================================================== *)
(** ** Module-level configuration (lines 20-43) *)

Definition MODEL_ID : string := "hexgrad/Kokoro-82M".
Definition DEFAULT_LANG_CODE : string := "a".
Definition DEFAULT_VOICE : string := "af_heart".
Definition SUPPORTED_FORMATS : list string :=
  ["mp3"; "opus"; "aac"; "flac"; "wav"; "pcm"].

(** The dict literal [supported_langs], in declaration order. *)
Definition supported_langs : list (string * string) :=
  [ ("a", "American English");
    ("b", "British English");
    ("e", "Spanish");
    ("f", "French");
    ("h", "Hindi");
    ("i", "Italian");
    ("p", "Brazilian Portuguese");
    ("j", "Japanese");
    ("z", "Mandarin Chinese") ].

(** [code in supported_langs]: membership among the keys. *)
Definition in_supported_langs (code : string) : bool :=
  existsb (fun kv => String.eqb code (fst kv)) supported_langs.

(* ================================================================== *)
(** ** Audio buffers, bytes and the 16-bit conversion *)

(** A sample is an IEEE-754 binary32 number ([prec = 24], [emax = 128]). *)
Definition f32_mul : spec_float -> spec_float -> spec_float := SFmul 24 128.
Definition f32_of_Z (z : Z) : spec_float := binary_normalize 24 128 z 0 false.

(** Binary64 constants of the handler. *)
Definition f64_of_Z (z : Z) : spec_float := binary_normalize 53 1024 z 0 false.
Definition f64_one : spec_float := f64_of_Z 1.

(** What the pipeline yields is a torch tensor; [np.concatenate] returns a
    NumPy array.  Both hold a one-dimensional run of samples. *)
Inductive Audio : Type :=
| Tensor (samples : list spec_float)
| NdArray (samples : list spec_float).

Definition samples_of (a : Audio) : list spec_float :=
  match a with Tensor s => s | NdArray s => s end.

Definition sample_count (a : Audio) : nat := List.length (samples_of a).

(** [np.concatenate(segments)]: one array, the segments end to end. *)
Definition np_concatenate (segments : list Audio) : Audio :=
  NdArray (List.concat (map samples_of segments)).

Definition bytes : Type := list Byte.byte.

Definition byte_of_Z (z : Z) : Byte.byte :=
  match Byte.of_N (Z.to_N (z mod 256)) with
  | Some b => b
  | None => Byte.x00
  end.

(** Integer part of a float, towards zero; [None] for NaN and infinities. *)
Definition trunc (x : spec_float) : option Z :=
  match x with
  | S754_zero _ => Some 0
  | S754_finite s m e =>
      let a := Z.shiftl (Zpos m) e in
      Some (if s then - a else a)
  | S754_infinity _ | S754_nan => None
  end.

Definition int16_min : Z := -32768.
Definition int16_max : Z := 32767.

(** Reduction to the signed 16-bit range. *)
Definition wrap16 (z : Z) : Z := (z + 32768) mod 65536 - 32768.

(** The two bytes of an [int16] as [tobytes()] lays them out on a
    little-endian host (two's complement). *)
Definition le16 (z : Z) : bytes :=
  let u := z mod 65536 in
  [byte_of_Z u; byte_of_Z (u / 256)].


(* ================================================================== *)
(** ** The external collaborators *)

(** What iterating the generator returned by a pipeline call gives: the
    audio segments in the order they were yielded, or the exception raised
    on the way. *)
Definition Generator : Type := Result (list Audio).

(** A loaded [KPipeline]: the language code it is bound to and its call
    [pipeline(text, voice=..., speed=...)]. *)
Record Pipeline : Type := mkPipeline {
  lang_code : string;
  pipeline_call : pyval -> pyval -> spec_float -> Generator
}.

Record World : Type := mkWorld {
  (** [KPipeline(lang_code=...)]: the model for that language, or the
      exception raised by the import or by the construction. *)
  kokoro_model : string -> Result (pyval -> pyval -> spec_float -> Generator);
  (** [import torch; torch.cuda.is_available()]. *)
  torch_cuda_is_available : Result bool;
  (** [scipy.io.wavfile.write] followed by pydub's mp3 export. *)
  encode_mp3 : list spec_float -> Z -> Result bytes;
  (** [scipy.io.wavfile.write], the ffmpeg process and the read-back. *)
  encode_opus : list spec_float -> Z -> Result bytes;
  (** [soundfile.write(..., format=format_name)]. *)
  sf_write : list spec_float -> Z -> pyval -> Result bytes;
  (** The string grammar of [float(s)]; [None] when it raises. *)
  float_of_str : string -> option spec_float;
  (** [repr(v)]. *)
  py_repr : pyval -> string;
  (** The C cast to [int16] of a float outside the [int16] range (NaN and
      infinities included), which the language leaves to the platform. *)
  cast_out_of_range : spec_float -> Z
}.

(** [KPipeline(lang_code=lang)]: the handle is bound to the code it was
    built with. *)
Definition KPipeline (w : World) (lang : string) : Result Pipeline :=
  match kokoro_model w lang with
  | Ok f => Ok (mkPipeline lang f)
  | Raise e => Raise e
  end.

(** [float(v)]. *)
Definition py_float (w : World) (v : pyval) : Result spec_float :=
  match v with
  | PFloat f => Ok f
  | PBool b => Ok (f64_of_Z (if b then 1 else 0))
  | PInt z =>
      match f64_of_Z z with
      | S754_infinity _ => Raise (Exn "OverflowError" "int too large to convert to float")
      | f => Ok f
      end
  | PStr s =>
      match float_of_str w s with
      | Some f => Ok f
      | None => Raise (Exn "ValueError"
                           ("could not convert string to float: " ++ py_repr w v))
      end
  | _ => Raise (TypeError ("float() argument must be a string or a real number, not '"
                           ++ type_name v ++ "'"))
  end.

(** [f"{v}"]: [str(v)], which is the string itself for a [str] and [repr]
    for the other JSON values. *)
Definition fstr (w : World) (v : pyval) : string :=
  match v with
  | PStr s => s
  | _ => py_repr w v
  end.

(** [x.astype(np.int16)] on one sample. *)
Definition astype_int16 (w : World) (x : spec_float) : Z :=
  match trunc x with
  | Some t =>
      if (int16_min <=? t) && (t <=? int16_max) then t
      else wrap16 (cast_out_of_range w x)
  | None => wrap16 (cast_out_of_range w x)
  end.

(** [(audio_array * 32767).astype(np.int16).tobytes()]. *)
Definition pcm_bytes (w : World) (samples : list spec_float) : bytes :=
  flat_map (fun s => le16 (astype_int16 w (f32_mul s (f32_of_Z 32767)))) samples.

(* ================================================================== *)
(** ** Process state, events and the handler monad *)

(** The globals [tts_pipeline] and [supported_voices] (lines 31-32). *)
Record Globals : Type := mkGlobals {
  tts_pipeline : option Pipeline;
  supported_voices : option (list string)
}.

Definition initial_globals : Globals := mkGlobals None None.

(** The calls a handler makes, in the order it makes them. *)
Inductive Event : Type :=
| EvLoad (lang : string)
    (** [load_pipeline(lang)] is entered *)
| EvSynth (p : Pipeline) (text voice : pyval) (lang : string) (speed : spec_float)
    (** the pipeline [p], read from the global, is invoked by
        [generate_speech(text, voice, lang, ..., speed)] *)
| EvConvert (a : Audio) (rate : Z) (format_name : pyval)
    (** [convert_audio_format] is entered *).

Definition M (A : Type) : Type := Globals -> Result A * Globals * list Event.

Definition ret {A} (a : A) : M A := fun g => (Ok a, g, []).

Definition bind {A B} (m : M A) (k : A -> M B) : M B :=
  fun g =>
    match m g with
    | (Ok a, g1, t1) => let '(r, g2, t2) := k a g1 in (r, g2, (t1 ++ t2)%list)
    | (Raise e, g1, t1) => (Raise e, g1, t1)
    end.

Definition lift {A} (r : Result A) : M A := fun g => (r, g, []).
Definition raise {A} (e : exn) : M A := lift (Raise e).
Definition emit (ev : Event) : M unit := fun g => (Ok tt, g, [ev]).
Definition read : M Globals := fun g => (Ok g, g, []).
Definition put (g' : Globals) : M unit := fun _ => (Ok tt, g', []).

(** [try: m  except Exception as e: h e]. *)
Definition try_except {A} (m : M A) (h : exn -> M A) : M A :=
  fun g =>
    match m g with
    | (Raise e, g1, t1) => let '(r, g2, t2) := h e g1 in (r, g2, (t1 ++ t2)%list)
    | ok => ok
    end.

(** Sequencing of computations that only raise. *)
Definition bindR {A B} (r : Result A) (k : A -> Result B) : Result B :=
  match r with
  | Ok a => k a
  | Raise e => Raise e
  end.

Declare Scope py_scope.
Delimit Scope py_scope with py.
Notation "x <- m ;; k" := (bind m (fun x => k))
  (at level 100, m at next level, right associativity) : py_scope.
Notation "m ;; k" := (bind m (fun _ => k))
  (at level 100, right associativity) : py_scope.
Notation "x <-? r ;; k" := (bindR r (fun x => k))
  (at level 100, r at next level, right associativity) : py_scope.
Open Scope py_scope.

(* ================================================================== *)
(** ** The functions of [server.py] *)

(** Lines 45-66.  The body of the [try] is a choice between two list
    literals and cannot raise, so the fallback of the [except] branch is
    never returned. *)
Definition get_supported_voices (lang_code : string) : list string :=
  if String.eqb lang_code "a" then
    [ "af_heart"; "af_alloy"; "af_aoede"; "af_bella"; "af_jessica"; "af_kore"; "af_nicole";
      "af_nova"; "af_river"; "af_sarah"; "af_sky"; "am_adam"; "am_echo"; "am_eric";
      "am_fenrir"; "am_liam"; "am_michael"; "am_onyx"; "am_puck"; "am_santa"; "bf_alice";
      "bf_emma"; "bf_isabella"; "bf_lily"; "bm_daniel"; "bm_fable"; "bm_george"; "bm_lewis" ]
  else
    [ "en_female_1"; "en_male_1"; "en_female_2"; "en_male_2" ].

(** Lines 68-94.  The two globals are assigned one after the other; the
    [except] branch logs and re-raises. *)
Definition load_pipeline (w : World) (lang_code : string) : M unit :=
  emit (EvLoad lang_code) ;;
  p <- lift (KPipeline w lang_code) ;;
  g <- read ;;
  put (mkGlobals (Some p) (supported_voices g)) ;;
  g <- read ;;
  put (mkGlobals (tts_pipeline g) (Some (get_supported_voices lang_code))) ;;
  _ <- lift (torch_cuda_is_available w) ;;
  ret tt.

(** Lines 138-199. *)
Definition convert_audio_format (w : World) (audio_array : Audio)
    (sample_rate : Z) (format_name : pyval) : M bytes :=
  emit (EvConvert audio_array sample_rate format_name) ;;
  (* Make sure format is supported *)
  let format_name :=
    if negb (in_strs format_name SUPPORTED_FORMATS) then PStr "mp3"
    else format_name in
  (* Convert PyTorch tensor to NumPy array if needed *)
  let audio_array :=
    match audio_array with
    | Tensor s => NdArray s
    | NdArray s => NdArray s
    end in
  if eq_str format_name "mp3" then
    lift (encode_mp3 w (samples_of audio_array) sample_rate)
  else if eq_str format_name "opus" then
    lift (encode_opus w (samples_of audio_array) sample_rate)
  else if eq_str format_name "pcm" then
    ret (pcm_bytes w (samples_of audio_array))
  else
    lift (sf_write w (samples_of audio_array) sample_rate format_name).

(** Lines 113-123: the segments collected from the generator are joined when
    there are several; otherwise the first one is taken. *)
Definition combine_segments (audio_segments : list Audio) : Result Audio :=
  if (1 <? Z.of_nat (List.length audio_segments)) then
    Ok (np_concatenate audio_segments)
  else
    index audio_segments 0.

(** Lines 96-136.  The [except] branch logs and re-raises. *)
Definition generate_speech (w : World) (text voice : pyval) (lang : string)
    (response_format : pyval) (speed : spec_float) : M (bytes * pyval) :=
  g <- read ;;
  match tts_pipeline g with
  | None => load_pipeline w lang
  | Some _ => ret tt
  end ;;
  g <- read ;;
  match tts_pipeline g with
  | None => raise (TypeError "'NoneType' object is not callable")
  | Some p =>
      emit (EvSynth p text voice lang speed) ;;
      audio_segments <- lift (pipeline_call p text voice speed) ;;
      combined_audio <- lift (combine_segments audio_segments) ;;
      let sample_rate := 24000 in
      audio_bytes <- convert_audio_format w combined_audio sample_rate response_format ;;
      ret (audio_bytes, response_format)
  end.

(** An HTTP response: [jsonify(body), status] or [send_file(...)]. *)
Inductive Response : Type :=
| JsonResponse (body : pyval) (status : Z)
| FileResponse (content : bytes) (mimetype : string) (download_name : string).

Definition status_of (r : Response) : Z :=
  match r with
  | JsonResponse _ s => s
  | FileResponse _ _ _ => 200
  end.

(** [jsonify({"error": msg}), status]. *)
Definition error_response (msg : string) (status : Z) : Response :=
  JsonResponse (PDict [("error", PStr msg)]) status.

(** Lines 227-233: the language code carried by the voice, and the voice
    that is left. *)
Definition resolve_language (voice : pyval) : Result (string * pyval) :=
  let lang := DEFAULT_LANG_CODE in
  dot <-? has_dot voice ;;
  long <-? (if dot : bool then n <-? len voice ;; Ok (2 <? n) else Ok false) ;;
  if long : bool then
    parts <-? split_dot1 voice ;;
    p0 <-? index parts 0 ;;
    if in_supported_langs p0 then
      p1 <-? index parts 1 ;;
      Ok (p0, PStr p1)
    else Ok (lang, voice)
  else Ok (lang, voice).

(** Line 243: the test that decides a reload. *)
Definition needs_reload (g : Globals) (lang : string) : bool :=
  match supported_voices g, tts_pipeline g with
  | None, _ => true
  | _, None => true
  | Some _, Some p => negb (String.eqb (lang_code p) lang)
  end.

(** [voice not in supported_voices], on the global as it stands. *)
Definition voice_unsupported (voice : pyval) : M bool :=
  g <- read ;;
  match supported_voices g with
  | Some vs => ret (negb (in_strs voice vs))
  | None => raise (TypeError "argument of type 'NoneType' is not iterable")
  end.

Definition voices_repr : M string :=
  g <- read ;;
  match supported_voices g with
  | Some vs => ret (repr_strs vs)
  | None => ret "None"
  end.

(** Lines 206-281: the body of the [try] of [create_speech], [data] being
    the result of [request.get_json(silent=True)]. *)
Definition create_speech_try (w : World) (data : pyval) : M Response :=
  match data with
  | PNone => ret (error_response "Invalid JSON" 400)
  | _ =>
      (* Extract parameters *)
      model <- lift (get data "model" (PStr MODEL_ID)) ;;
      text <- lift (get data "input" PNone) ;;
      voice <- lift (get data "voice" (PStr DEFAULT_VOICE)) ;;
      response_format <- lift (get data "response_format" (PStr "mp3")) ;;
      speed_arg <- lift (get data "speed" (PFloat f64_one)) ;;
      speed <- lift (py_float w speed_arg) ;;
      (* Extract language code *)
      lv <- lift (resolve_language voice) ;;
      let '(lang, voice) := lv in
      (* Validate required parameters *)
      if negb (truthy text) then
        ret (error_response "Missing required parameter: input" 400)
      else
        (* Make sure voices are loaded for the language *)
        g <- read ;;
        (if needs_reload g lang then load_pipeline w lang else ret tt) ;;
        (* Validate voice against known voices *)
        bad_voice <- voice_unsupported voice ;;
        if bad_voice : bool then
          vs <- voices_repr ;;
          ret (error_response
                 ("Voice '" ++ fstr w voice ++ "' not supported for language '"
                  ++ lang ++ "'. Supported voices: " ++ vs) 400)
        else if negb (in_strs response_format SUPPORTED_FORMATS) then
          ret (error_response
                 ("Format '" ++ fstr w response_format
                  ++ "' not supported. Supported formats: "
                  ++ repr_strs SUPPORTED_FORMATS) 400)
        else
          lift (preview text) ;;
          (* Generate speech *)
          out <- generate_speech w text voice lang response_format speed ;;
          let '(audio_bytes, format_name) := out in
          (* Return audio file *)
          let mimetype := "audio/" ++ fstr w format_name in
          let mimetype :=
            if eq_str format_name "wav" then "audio/wav"
            else if eq_str format_name "pcm" then "audio/pcm"
            else mimetype in
          ret (FileResponse audio_bytes mimetype ("speech." ++ fstr w format_name))
  end.

(** Lines 201-286: [POST /v1/audio/speech]. *)
Definition create_speech (w : World) (data : pyval) : M Response :=
  try_except (create_speech_try w data)
             (fun e => ret (error_response (exn_str e) 500)).

(** Lines 305-313: [GET /v1/languages]. *)
Definition list_languages : Response :=
  JsonResponse
    (PDict [ ("object", PStr "list");
             ("data", PList (map (fun kv => PDict [ ("code", PStr (fst kv));
                                                    ("name", PStr (snd kv)) ])
                                 supported_langs)) ])
    200.

(* ================================================================== *)
(** ** Auxiliary definitions used by the statements *)

(** The parameters of a request once lines 217-233 have run. *)
Record Params : Type := mkParams {
  p_text : pyval;
  p_voice : pyval;
  p_lang : string;
  p_format : pyval;
  p_speed : spec_float
}.

(** Lines 217-233 on their own: they touch neither the globals nor the
    collaborators. *)
Definition extract_params (w : World) (data : pyval) : Result Params :=
  model <-? get data "model" (PStr MODEL_ID) ;;
  text <-? get data "input" PNone ;;
  voice <-? get data "voice" (PStr DEFAULT_VOICE) ;;
  response_format <-? get data "response_format" (PStr "mp3") ;;
  speed_arg <-? get data "speed" (PFloat f64_one) ;;
  speed <-? py_float w speed_arg ;;
  lv <-? resolve_language voice ;;
  Ok (mkParams text (snd lv) (fst lv) response_format speed).

(** Line 243-245 on their own. *)
Definition reconcile (w : World) (lang : string) : M unit :=
  g <- read ;;
  if needs_reload g lang then load_pipeline w lang else ret tt.

(** The content type chosen at lines 268-272. *)
Definition mimetype_of (w : World) (format_name : pyval) : string :=
  if eq_str format_name "wav" then "audio/wav"
  else if eq_str format_name "pcm" then "audio/pcm"
  else "audio/" ++ fstr w format_name.

(** The 400 bodies of lines 250 and 254. *)
Definition voice_error (w : World) (voice : pyval) (lang : string)
    (vs : list string) : string :=
  "Voice '" ++ fstr w voice ++ "' not supported for language '" ++ lang
  ++ "'. Supported voices: " ++ repr_strs vs.

Definition format_error (w : World) (response_format : pyval) : string :=
  "Format '" ++ fstr w response_format ++ "' not supported. Supported formats: "
  ++ repr_strs SUPPORTED_FORMATS.

(** A value on which [float] raises whatever the platform: not a number,
    not a string, or a string outside the grammar of [float]. *)
Definition non_numeric (w : World) (v : pyval) : bool :=
  match v with
  | PNone | PList _ | PDict _ => true
  | PStr s => match float_of_str w s with Some _ => false | None => true end
  | PBool _ | PInt _ | PFloat _ => false
  end.


Definition is_synth (ev : Event) : bool :=
  match ev with EvSynth _ _ _ _ _ => true | _ => false end.

Definition is_convert (ev : Event) : bool :=
  match ev with EvConvert _ _ _ => true | _ => false end.

(** *** The runs of [create_speech]

    A request passes the stages Validate, Reconcile-Language,
    Reconcile-Voice, Reconcile-Format, Synthesize, Encode and Respond; it may
    leave at any of them. *)

(** The request got past the reconciliation of line 243-245: [ps] are its
    parameters, [g1] the globals and [t1] the calls made so far. *)
Definition reconciled (w : World) (data : pyval) (g : Globals)
    (ps : Params) (g1 : Globals) (t1 : list Event) (vs : list string) : Prop :=
  data <> PNone /\
  extract_params w data = Ok ps /\
  truthy (p_text ps) = true /\
  reconcile w (p_lang ps) g = (Ok tt, g1, t1) /\
  supported_voices g1 = Some vs.

(** The request got as far as invoking the pipeline [p]. *)
Definition synthesizing (w : World) (data : pyval) (g : Globals)
    (ps : Params) (g1 : Globals) (t1 : list Event) (p : Pipeline) : Prop :=
  (exists vs, reconciled w data g ps g1 t1 vs /\
              in_strs (p_voice ps) vs = true) /\
  in_strs (p_format ps) SUPPORTED_FORMATS = true /\
  preview (p_text ps) = Ok tt /\
  tts_pipeline g1 = Some p.

Definition synth_event (ps : Params) (p : Pipeline) : Event :=
  EvSynth p (p_text ps) (p_voice ps) (p_lang ps) (p_speed ps).

Inductive Outcome (w : World) (data : pyval) (g : Globals)
  : Response -> Globals -> list Event -> Prop :=
| OutInvalidJson :
    data = PNone ->
    Outcome w data g (error_response "Invalid JSON" 400) g []
| OutParamError e :
    data <> PNone ->
    extract_params w data = Raise e ->
    Outcome w data g (error_response (exn_str e) 500) g []
| OutMissingInput ps :
    data <> PNone ->
    extract_params w data = Ok ps ->
    truthy (p_text ps) = false ->
    Outcome w data g (error_response "Missing required parameter: input" 400) g []
| OutLoadError ps e g1 t1 :
    data <> PNone ->
    extract_params w data = Ok ps ->
    truthy (p_text ps) = true ->
    reconcile w (p_lang ps) g = (Raise e, g1, t1) ->
    Outcome w data g (error_response (exn_str e) 500) g1 t1
| OutBadVoice ps g1 t1 vs :
    reconciled w data g ps g1 t1 vs ->
    in_strs (p_voice ps) vs = false ->
    Outcome w data g
            (error_response (voice_error w (p_voice ps) (p_lang ps) vs) 400) g1 t1
| OutBadFormat ps g1 t1 vs :
    reconciled w data g ps g1 t1 vs ->
    in_strs (p_voice ps) vs = true ->
    in_strs (p_format ps) SUPPORTED_FORMATS = false ->
    Outcome w data g (error_response (format_error w (p_format ps)) 400) g1 t1
| OutPreviewError ps g1 t1 vs e :
    reconciled w data g ps g1 t1 vs ->
    in_strs (p_voice ps) vs = true ->
    in_strs (p_format ps) SUPPORTED_FORMATS = true ->
    preview (p_text ps) = Raise e ->
    Outcome w data g (error_response (exn_str e) 500) g1 t1
| OutSynthError ps g1 t1 p e :
    synthesizing w data g ps g1 t1 p ->
    pipeline_call p (p_text ps) (p_voice ps) (p_speed ps) = Raise e ->
    Outcome w data g (error_response (exn_str e) 500) g1
            (t1 ++ [synth_event ps p])
| OutCombineError ps g1 t1 p segs e :
    synthesizing w data g ps g1 t1 p ->
    pipeline_call p (p_text ps) (p_voice ps) (p_speed ps) = Ok segs ->
    combine_segments segs = Raise e ->
    Outcome w data g (error_response (exn_str e) 500) g1
            (t1 ++ [synth_event ps p])
| OutEncodeError ps g1 t1 p segs combined e :
    synthesizing w data g ps g1 t1 p ->
    pipeline_call p (p_text ps) (p_voice ps) (p_speed ps) = Ok segs ->
    combine_segments segs = Ok combined ->
    convert_audio_format w combined 24000 (p_format ps) g1
      = (Raise e, g1, [EvConvert combined 24000 (p_format ps)]) ->
    Outcome w data g (error_response (exn_str e) 500) g1
            (t1 ++ [synth_event ps p; EvConvert combined 24000 (p_format ps)])
| OutAudio ps g1 t1 p segs combined content :
    synthesizing w data g ps g1 t1 p ->
    pipeline_call p (p_text ps) (p_voice ps) (p_speed ps) = Ok segs ->
    combine_segments segs = Ok combined ->
    convert_audio_format w combined 24000 (p_format ps) g1
      = (Ok content, g1, [EvConvert combined 24000 (p_format ps)]) ->
    Outcome w data g
            (FileResponse content (mimetype_of w (p_format ps))
                          ("speech." ++ fstr w (p_format ps)))
            g1
            (t1 ++ [synth_event ps p; EvConvert combined 24000 (p_format ps)]).

(** *** A small concrete world, for running the model *)

Definition f32_half : spec_float := S754_finite false 8388608 (-24).
Definition f32_two : spec_float := f32_of_Z 2.

Definition demo_segments : list Audio :=
  [ Tensor [f32_half; f32_of_Z 1]; Tensor [f32_two] ].

Definition demo_model (lang : string) : pyval -> pyval -> spec_float -> Generator :=
  fun text _ _ =>
    if eq_str text "silence" then Ok [] else Ok demo_segments.

Definition demo_world : World :=
  {| kokoro_model := fun lang => Ok (demo_model lang);
     torch_cuda_is_available := Ok false;
     encode_mp3 := fun _ _ => Ok [Byte.x49; Byte.x44; Byte.x33];
     encode_opus := fun _ _ => Ok [Byte.x4f; Byte.x67; Byte.x67; Byte.x53];
     sf_write := fun _ _ _ => Ok [Byte.x52; Byte.x49; Byte.x46; Byte.x46];
     float_of_str := fun s => if String.eqb s "2" then Some (f64_of_Z 2) else None;
     py_repr := fun v => match v with PStr s => "'" ++ s ++ "'" | _ => "?" end;
     cast_out_of_range := fun x => match trunc x with Some t => t | None => 0 end |}.

Definition demo_pipeline (lang : string) : Pipeline :=
  mkPipeline lang (demo_model lang).

Definition demo_loaded (lang : string) : Globals :=
  mkGlobals (Some (demo_pipeline lang)) (Some (get_supported_voices lang)).

(** Requests run in the statements below. *)
Definition request_empty_input : pyval := PDict [("input", PStr "")].

Definition request_british : pyval :=
  PDict [("input", PStr "hi"); ("voice", PStr "b.en_male_1")].

Definition british_pipeline_call : Event :=
  EvSynth (demo_pipeline "b") (PStr "hi") (PStr "en_male_1") "b" f64_one.

Definition request_fast : list (string * pyval) :=
  [("input", PStr "hi"); ("speed", PStr "fast")].

(* ================================================================== *)
(** ** Running the functions: equations for each stage *)

(* ================================================================== *)
(** ** The other endpoints and the start of the process *)

(** Lines 288-303: [GET /v1/models]. *)
Definition list_models : Response :=
  JsonResponse
    (PDict [ ("object", PStr "list");
             ("data",
              PList [ PDict [ ("id", PStr MODEL_ID);
                              ("object", PStr "model");
                              ("created", PInt 1677610602);
                              ("owned_by", PStr "user");
                              ("permission", PList []);
                              ("root", PStr MODEL_ID);
                              ("parent", PNone) ] ]) ])
    200.

(** [jsonify] of the global [supported_voices]. *)
Definition voices_json (vs : option (list string)) : pyval :=
  match vs with
  | Some l => PList (map PStr l)
  | None => PNone
  end.

(** Lines 315-330: [GET /health]. *)
Definition health_check : M Response :=
  g <- read ;;
  (* Make sure voices are loaded *)
  match supported_voices g with
  | None =>
      put (mkGlobals (tts_pipeline g)
                     (Some (get_supported_voices DEFAULT_LANG_CODE)))
  | Some _ => ret tt
  end ;;
  g <- read ;;
  ret (JsonResponse
         (PDict [ ("status", PStr "ok");
                  ("model", PStr MODEL_ID);
                  ("supported_languages",
                   PDict (map (fun kv => (fst kv, PStr (snd kv))) supported_langs));
                  ("supported_voices", voices_json (supported_voices g));
                  ("supported_formats", PList (map PStr SUPPORTED_FORMATS)) ])
         200).

(** Lines 332-337: the pre-load of the main block; a failure is logged and
    the server starts all the same. *)
Definition main_preload (w : World) : M unit :=
  try_except (load_pipeline w DEFAULT_LANG_CODE) (fun _ => ret tt).

(** The four routes of the application. *)
Inductive Request : Type :=
| PostSpeech (data : pyval)
| GetModels
| GetLanguages
| GetHealth.

Definition handle (w : World) (req : Request) : M Response :=
  match req with
  | PostSpeech data => create_speech w data
  | GetModels => ret list_models
  | GetLanguages => ret list_languages
  | GetHealth => health_check
  end.

(** *** Requests that overlap

    [app.run] serves each request in a thread of its own and nothing locks
    the globals.  The two definitions below cut [create_speech] at the call
    of [generate_speech], and the next one lets other requests be handled
    at that point. *)

(** Lines 206-256: the handler up to the call of [generate_speech]; the
    early answer, or the parameters that are about to be synthesized. *)
Definition create_speech_before_synthesis (w : World) (data : pyval)
  : M (Response + Params) :=
  match data with
  | PNone => ret (inl (error_response "Invalid JSON" 400))
  | _ =>
      model <- lift (get data "model" (PStr MODEL_ID)) ;;
      text <- lift (get data "input" PNone) ;;
      voice <- lift (get data "voice" (PStr DEFAULT_VOICE)) ;;
      response_format <- lift (get data "response_format" (PStr "mp3")) ;;
      speed_arg <- lift (get data "speed" (PFloat f64_one)) ;;
      speed <- lift (py_float w speed_arg) ;;
      lv <- lift (resolve_language voice) ;;
      let '(lang, voice) := lv in
      if negb (truthy text) then
        ret (inl (error_response "Missing required parameter: input" 400))
      else
        g <- read ;;
        (if needs_reload g lang then load_pipeline w lang else ret tt) ;;
        bad_voice <- voice_unsupported voice ;;
        if bad_voice : bool then
          vs <- voices_repr ;;
          ret (inl (error_response
                      ("Voice '" ++ fstr w voice ++ "' not supported for language '"
                       ++ lang ++ "'. Supported voices: " ++ vs) 400))
        else if negb (in_strs response_format SUPPORTED_FORMATS) then
          ret (inl (error_response
                      ("Format '" ++ fstr w response_format
                       ++ "' not supported. Supported formats: "
                       ++ repr_strs SUPPORTED_FORMATS) 400))
        else
          lift (preview text) ;;
          ret (inr (mkParams text voice lang response_format speed))
  end.

(** Lines 258-281: the call of [generate_speech] and the answer made of
    what it returns. *)
Definition create_speech_synthesis (w : World) (ps : Params) : M Response :=
  out <- generate_speech w (p_text ps) (p_voice ps) (p_lang ps)
                         (p_format ps) (p_speed ps) ;;
  let '(audio_bytes, format_name) := out in
  let mimetype := "audio/" ++ fstr w format_name in
  let mimetype :=
    if eq_str format_name "wav" then "audio/wav"
    else if eq_str format_name "pcm" then "audio/pcm"
    else mimetype in
  ret (FileResponse audio_bytes mimetype ("speech." ++ fstr w format_name)).

(** Requests handled one after the other, their answers dropped. *)
Fixpoint handle_all (w : World) (reqs : list Request) : M unit :=
  match reqs with
  | [] => ret tt
  | req :: reqs' => handle w req ;; handle_all w reqs'
  end.

(** A request whose thread is suspended between line 256 and line 259 while
    the requests [others] are handled by other threads. *)
Definition create_speech_overlapped (w : World) (data : pyval)
    (others : list Request) : M Response :=
  try_except
    (r <- create_speech_before_synthesis w data ;;
     match r with
     | inl resp => ret resp
     | inr ps => handle_all w others ;; create_speech_synthesis w ps
     end)
    (fun e => ret (error_response (exn_str e) 500)).

(** Lines 72-78 of [load_pipeline]: the model is built and assigned. *)
Definition load_pipeline_handle (w : World) (lang_code : string) : M unit :=
  emit (EvLoad lang_code) ;;
  p <- lift (KPipeline w lang_code) ;;
  g <- read ;;
  put (mkGlobals (Some p) (supported_voices g)).

(** Lines 80-90 of [load_pipeline]: the voice list is assigned and the GPU
    is probed. *)
Definition load_pipeline_voices (w : World) (lang_code : string) : M unit :=
  g <- read ;;
  put (mkGlobals (tts_pipeline g) (Some (get_supported_voices lang_code))) ;;
  _ <- lift (torch_cuda_is_available w) ;;
  ret tt.

(** The voice list held is the list of some language, and it is the list of
    the language of the pipeline held, when one is. *)
Definition consistent (g : Globals) : Prop :=
  (forall p, tts_pipeline g = Some p ->
             supported_voices g = Some (get_supported_voices (lang_code p))) /\
  (forall vs, supported_voices g = Some vs ->
              exists lang, vs = get_supported_voices lang).

Definition is_load (ev : Event) : bool :=
  match ev with EvLoad _ => true | _ => false end.

(** The keys of the body that [create_speech] reads besides [model]. *)
Definition read_keys : list string :=
  ["input"; "voice"; "response_format"; "speed"].

(** A world without the [kokoro] package, and one whose GPU probe fails. *)
Definition no_kokoro : exn := Exn "ModuleNotFoundError" "No module named 'kokoro'".

Definition world_without_kokoro : World :=
  {| kokoro_model := fun _ => Raise no_kokoro;
     torch_cuda_is_available := torch_cuda_is_available demo_world;
     encode_mp3 := encode_mp3 demo_world;
     encode_opus := encode_opus demo_world;
     sf_write := sf_write demo_world;
     float_of_str := float_of_str demo_world;
     py_repr := py_repr demo_world;
     cast_out_of_range := cast_out_of_range demo_world |}.

Definition probe_error : exn := Exn "RuntimeError" "CUDA driver initialization failed".

Definition world_with_failing_probe : World :=
  {| kokoro_model := kokoro_model demo_world;
     torch_cuda_is_available := Raise probe_error;
     encode_mp3 := encode_mp3 demo_world;
     encode_opus := encode_opus demo_world;
     sf_write := sf_write demo_world;
     float_of_str := float_of_str demo_world;
     py_repr := py_repr demo_world;
     cast_out_of_range := cast_out_of_range demo_world |}.

Definition request_hi : pyval := PDict [("input", PStr "hi")].

(** No string occurs twice in the list. *)
Fixpoint distinct (l : list string) : bool :=
  match l with
  | [] => true
  | x :: l' => negb (existsb (String.eqb x) l') && distinct l'
  end.

(** The encoder that serves a format name, read as a table: raw PCM, the
    ffmpeg path, the codec library for the three formats it is given, and
    the mp3 path for ["mp3"] and for every other value. *)
Definition encoding (w : World) (samples : list spec_float) (rate : Z)
    (format_name : pyval) : Result bytes :=
  if eq_str format_name "pcm" then Ok (pcm_bytes w samples)
  else if eq_str format_name "opus" then encode_opus w samples rate
  else if in_strs format_name ["aac"; "flac"; "wav"] then
    sf_write w samples rate format_name
  else encode_mp3 w samples rate.

(** Proof steps shared by the lemmas below. *)
Ltac run_monad :=
  cbv beta iota delta [bind lift ret raise emit read put try_except bindR] in *.

Ltac in_trace :=
  repeat match goal with
         | H : In _ (_ ++ _) |- _ => apply in_app_or in H; destruct H
         | H : In _ (_ :: _) |- _ => destruct H
         | H : In _ [] |- _ => destruct H
         end.

Lemma pyval_is_none (v : pyval) : {v = PNone} + {v <> PNone}.
Proof. destruct v; (left; reflexivity) || (right; discriminate). Qed.

Lemma load_pipeline_run (w : World) (lang : string) (g : Globals) :
  load_pipeline w lang g =
    match kokoro_model w lang with
    | Raise e => (Raise e, g, [EvLoad lang])
    | Ok f =>
        let g1 := mkGlobals (Some (mkPipeline lang f))
                            (Some (get_supported_voices lang)) in
        match torch_cuda_is_available w with
        | Ok _ => (Ok tt, g1, [EvLoad lang])
        | Raise e => (Raise e, g1, [EvLoad lang])
        end
    end.
Proof.
  unfold load_pipeline, KPipeline. run_monad.
  destruct (kokoro_model w lang); simpl; [ | reflexivity ].
  destruct (torch_cuda_is_available w); reflexivity.
Qed.

(** A load either leaves the globals alone (the model could not be built) or
    replaces both of them. *)
Lemma load_pipeline_globals (w : World) (lang : string) (g : Globals) r g1 t :
  load_pipeline w lang g = (r, g1, t) ->
  t = [EvLoad lang] /\
  ((exists e, kokoro_model w lang = Raise e /\ r = Raise e /\ g1 = g) \/
   (exists f, kokoro_model w lang = Ok f /\
              g1 = mkGlobals (Some (mkPipeline lang f))
                             (Some (get_supported_voices lang)))).
Proof.
  rewrite load_pipeline_run.
  destruct (kokoro_model w lang) as [f | e].
  - cbv zeta. destruct (torch_cuda_is_available w);
      intros H; inversion H; subst; split; trivial; right; exists f; auto.
  - intros H; inversion H; subst; split; trivial; left; exists e; auto.
Qed.

Lemma reconcile_run (w : World) (lang : string) (g : Globals) :
  reconcile w lang g =
    if needs_reload g lang then load_pipeline w lang g else (Ok tt, g, []).
Proof.
  unfold reconcile. run_monad.
  destruct (needs_reload g lang); [ | reflexivity ].
  destruct (load_pipeline w lang g) as [[r g1] t]. simpl.
  destruct r; reflexivity.
Qed.

Lemma needs_reload_false (g : Globals) (lang : string) :
  needs_reload g lang = false ->
  exists p vs, tts_pipeline g = Some p /\ supported_voices g = Some vs /\
               lang_code p = lang.
Proof.
  unfold needs_reload.
  destruct (supported_voices g) as [vs | ]; [ | discriminate ].
  destruct (tts_pipeline g) as [p | ]; [ | discriminate ].
  intros H. exists p, vs. repeat split.
  apply String.eqb_eq. destruct (String.eqb (lang_code p) lang); simpl in H; congruence.
Qed.

(** After a successful reconciliation the pipeline is bound to the language
    asked for and the voice list is present. *)
Lemma reconcile_ok (w : World) (lang : string) (g g1 : Globals) u t :
  reconcile w lang g = (Ok u, g1, t) ->
  exists p vs, tts_pipeline g1 = Some p /\ supported_voices g1 = Some vs /\
               lang_code p = lang /\
    ((needs_reload g lang = false /\ g1 = g /\ t = []) \/
     (needs_reload g lang = true /\ t = [EvLoad lang] /\
      exists f, kokoro_model w lang = Ok f /\
                g1 = mkGlobals (Some (mkPipeline lang f))
                               (Some (get_supported_voices lang)))).
Proof.
  rewrite reconcile_run. destruct (needs_reload g lang) eqn:Hn.
  - intros H. apply load_pipeline_globals in H.
    destruct H as [Ht [(e & _ & Hr & _) | (f & Hf & Hg)]]; [ discriminate | ].
    subst g1. exists (mkPipeline lang f), (get_supported_voices lang).
    repeat split. right. repeat split; trivial. exists f. auto.
  - intros H; inversion H; subst.
    destruct (needs_reload_false _ _ Hn) as (p & vs & Hp & Hv & Hl).
    exists p, vs. repeat split; trivial. left. auto.
Qed.

Lemma reconcile_raise (w : World) (lang : string) (g g1 : Globals) e t :
  reconcile w lang g = (Raise e, g1, t) ->
  needs_reload g lang = true /\ t = [EvLoad lang].
Proof.
  rewrite reconcile_run. destruct (needs_reload g lang).
  - intros H. apply load_pipeline_globals in H. tauto.
  - discriminate.
Qed.

Lemma convert_audio_format_run (w : World) (a : Audio) (rate : Z)
    (fmt : pyval) (g : Globals) :
  exists r, convert_audio_format w a rate fmt g = (r, g, [EvConvert a rate fmt]).
Proof.
  unfold convert_audio_format. run_monad.
  set (fmt' := if negb (in_strs fmt SUPPORTED_FORMATS) then PStr "mp3" else fmt).
  destruct (eq_str fmt' "mp3"); [ | destruct (eq_str fmt' "opus");
    [ | destruct (eq_str fmt' "pcm") ] ]; simpl;
    try (eexists; reflexivity);
    match goal with
    | |- context [match ?x with _ => _ end] => destruct x
    end; eexists; reflexivity.
Qed.

(** With a pipeline loaded, [generate_speech] invokes it, joins what it
    yields and hands the joined buffer to the converter. *)
Lemma generate_speech_loaded (w : World) text voice lang fmt speed
    (g : Globals) (p : Pipeline) :
  tts_pipeline g = Some p ->
  generate_speech w text voice lang fmt speed g =
    match pipeline_call p text voice speed with
    | Raise e => (Raise e, g, [EvSynth p text voice lang speed])
    | Ok segs =>
        match combine_segments segs with
        | Raise e => (Raise e, g, [EvSynth p text voice lang speed])
        | Ok combined =>
            let '(r, g', t) := convert_audio_format w combined 24000 fmt g in
            (bindR r (fun b => Ok (b, fmt)), g',
             EvSynth p text voice lang speed :: t)
        end
    end.
Proof.
  intros Hp. unfold generate_speech. run_monad. rewrite Hp. simpl. rewrite Hp.
  destruct (pipeline_call p text voice speed) as [segs | e]; simpl; [ | reflexivity ].
  destruct (combine_segments segs) as [combined | e]; simpl; [ | reflexivity ].
  destruct (convert_audio_format_run w combined 24000 fmt g) as [r Hr].
  rewrite Hr. destruct r; reflexivity.
Qed.

Lemma create_speech_try_raise (w : World) (data : pyval) (g : Globals) e :
  data <> PNone ->
  extract_params w data = Raise e ->
  create_speech_try w data g = (Raise e, g, []).
Proof.
  intros Hd He.
  destruct data; try congruence; try (inversion He; reflexivity).
  unfold extract_params, create_speech_try in *. cbn [get] in *. run_monad.
  cbn beta iota in *.
  destruct (py_float w _); [ | inversion He; reflexivity ].
  destruct (resolve_language _) as [[lang v] | e']; inversion He; reflexivity.
Qed.

(** The handler after its parameters are extracted, stage by stage. *)
Lemma create_speech_try_run (w : World) (data : pyval) (g : Globals) ps :
  data <> PNone ->
  extract_params w data = Ok ps ->
  create_speech_try w data g =
    if negb (truthy (p_text ps)) then
      (Ok (error_response "Missing required parameter: input" 400), g, [])
    else
      match reconcile w (p_lang ps) g with
      | (Raise e, g1, t1) => (Raise e, g1, t1)
      | (Ok _, g1, t1) =>
          match supported_voices g1 with
          | None => (Raise (TypeError "argument of type 'NoneType' is not iterable"), g1, t1)
          | Some vs =>
              if negb (in_strs (p_voice ps) vs) then
                (Ok (error_response (voice_error w (p_voice ps) (p_lang ps) vs) 400), g1, t1)
              else if negb (in_strs (p_format ps) SUPPORTED_FORMATS) then
                (Ok (error_response (format_error w (p_format ps)) 400), g1, t1)
              else
                match preview (p_text ps) with
                | Raise e => (Raise e, g1, t1)
                | Ok _ =>
                    match generate_speech w (p_text ps) (p_voice ps) (p_lang ps)
                                          (p_format ps) (p_speed ps) g1 with
                    | (Raise e, g2, t2) => (Raise e, g2, (t1 ++ t2)%list)
                    | (Ok (content, f), g2, t2) =>
                        (Ok (FileResponse content (mimetype_of w f)
                                          ("speech." ++ fstr w f)),
                         g2, (t1 ++ t2)%list)
                    end
                end
          end
      end.
Proof.
  intros Hd He.
  destruct data; try congruence; try discriminate He.
  unfold extract_params, create_speech_try in *. cbn [get] in *. run_monad.
  cbn beta iota in *.
  destruct (py_float w _) as [speed | ]; [ | discriminate He ].
  destruct (resolve_language _) as [[lang v] | e']; [ | discriminate He ].
  inversion He; subst ps; clear He. cbn [p_text p_voice p_lang p_format p_speed fst snd].
  destruct (negb (truthy _)); [ reflexivity | ].
  rewrite reconcile_run.
  set (X := if needs_reload g lang then load_pipeline w lang g else (Ok tt, g, [])).
  replace ((if needs_reload g lang then load_pipeline w lang
            else fun g : Globals => (Ok tt, g, [])) g) with X
    by (unfold X; destruct (needs_reload g lang); reflexivity).
  destruct X as [[r g1] t1]. destruct r as [u | e]; [ | reflexivity ].
  unfold voice_unsupported, voices_repr. run_monad. cbn beta iota.
  destruct (supported_voices g1) as [vs | ] eqn:Hsv;
    [ | simpl; rewrite ?app_nil_r; reflexivity ].
  cbn beta iota. destruct (negb (in_strs v vs)).
  - rewrite Hsv. simpl. rewrite ?app_nil_r. reflexivity.
  - destruct (negb (in_strs _ SUPPORTED_FORMATS)).
    + simpl. rewrite ?app_nil_r. reflexivity.
    + destruct (preview _); [ | simpl; rewrite ?app_nil_r; reflexivity ].
      destruct (generate_speech w _ v lang _ speed g1) as [[r2 g2] t2].
      destruct r2 as [[content f] | e]; simpl; rewrite ?app_nil_r;
        unfold mimetype_of; reflexivity.
Qed.

(** Every run of the handler is one of the runs of [Outcome]. *)
Lemma create_speech_outcome (w : World) (data : pyval) (g : Globals) :
  exists resp g1 t,
    create_speech w data g = (Ok resp, g1, t) /\ Outcome w data g resp g1 t.
Proof.
  unfold create_speech, try_except.
  assert (Hcatch : forall e (g1 : Globals) (t1 : list Event),
             (let '(r, g2, t2) := ret (error_response (exn_str e) 500) g1 in
              (r, g2, (t1 ++ t2)%list))
             = (Ok (error_response (exn_str e) 500), g1, t1)).
  { intros. unfold ret. rewrite app_nil_r. reflexivity. }
  destruct (pyval_is_none data) as [Hd | Hd].
  { subst data. simpl. do 3 eexists. split; [ reflexivity | now constructor ]. }
  destruct (extract_params w data) as [ps | e] eqn:He.
  2:{ rewrite (create_speech_try_raise w data g e Hd He), Hcatch.
      do 3 eexists. split; [ reflexivity | now apply OutParamError ]. }
  rewrite (create_speech_try_run w data g ps Hd He).
  destruct (truthy (p_text ps)) eqn:Ht; cbn [negb].
  2:{ do 3 eexists. split; [ reflexivity | now apply OutMissingInput with ps ]. }
  destruct (reconcile w (p_lang ps) g) as [[r g1] t1] eqn:Hr.
  destruct r as [[] | e].
  2:{ rewrite Hcatch. do 3 eexists. split; [ reflexivity | ].
      eapply OutLoadError; eauto. }
  destruct (reconcile_ok _ _ _ _ _ _ Hr) as (p & vs & Hp & Hv & Hl & _).
  rewrite Hv.
  assert (Hrec : reconciled w data g ps g1 t1 vs) by (red; auto).
  destruct (in_strs (p_voice ps) vs) eqn:Hvoice; cbn [negb].
  2:{ do 3 eexists. split; [ reflexivity | now apply OutBadVoice ]. }
  destruct (in_strs (p_format ps) SUPPORTED_FORMATS) eqn:Hfmt; cbn [negb].
  2:{ do 3 eexists. split; [ reflexivity | now apply OutBadFormat with vs ]. }
  destruct (preview (p_text ps)) as [[] | e] eqn:Hpre.
  2:{ rewrite Hcatch. do 3 eexists. split; [ reflexivity | ].
      eapply OutPreviewError; eauto. }
  assert (Hsyn : synthesizing w data g ps g1 t1 p).
  { red. repeat split; trivial. exists vs. auto. }
  rewrite (generate_speech_loaded w _ _ _ _ _ g1 p Hp).
  destruct (pipeline_call p _ _ _) as [segs | e] eqn:Hcall.
  2:{ rewrite Hcatch. do 3 eexists. split; [ reflexivity | ].
      eapply OutSynthError; eauto. }
  destruct (combine_segments segs) as [combined | e] eqn:Hcomb.
  2:{ rewrite Hcatch. do 3 eexists. split; [ reflexivity | ].
      eapply OutCombineError; eauto. }
  destruct (convert_audio_format_run w combined 24000 (p_format ps) g1) as [r Hconv].
  rewrite Hconv. destruct r as [content | e]; cbn [bindR].
  - do 3 eexists. split; [ reflexivity | ].
    eapply OutAudio; eauto.
  - rewrite Hcatch. do 3 eexists. split; [ reflexivity | ].
    eapply OutEncodeError; eauto.
Qed.

(* ================================================================== *)
(** ** Voice strings with a language prefix *)

Lemma in_supported_langs_keys (code : string) :
  in_supported_langs code = true <-> In code (map fst supported_langs).
Proof.
  unfold in_supported_langs. rewrite existsb_exists. split.
  - intros [kv [Hin Heq]]. apply String.eqb_eq in Heq. subst.
    now apply in_map.
  - intros Hin. apply in_map_iff in Hin. destruct Hin as [kv [Hk Hin]].
    exists kv. split; trivial. now apply String.eqb_eq.
Qed.

Lemma str_has_dot_app (p r : string) :
  str_has_dot (p ++ "." ++ r) = true.
Proof.
  induction p as [ | c p IH]; simpl; [ reflexivity | ].
  destruct (Ascii.eqb c "."); trivial.
Qed.

(** A string with a dot is cut in one way at its first dot. *)
Lemma first_dot_exists (s : string) :
  str_has_dot s = true ->
  exists p r, s = p ++ "." ++ r /\ str_has_dot p = false.
Proof.
  induction s as [ | c s IH]; simpl; [ discriminate | ].
  destruct (Ascii.eqb c ".") eqn:Hc.
  - intros _. apply Ascii.eqb_eq in Hc. subst c. exists "", s. auto.
  - intros H. destruct (IH H) as (p & r & Hs & Hp).
    exists (String c p), r. simpl. rewrite Hc. subst s. auto.
Qed.

Lemma str_split_dot1_app (p r : string) :
  str_has_dot p = false ->
  str_split_dot1 (p ++ "." ++ r) = [p; r].
Proof.
  induction p as [ | c p IH]; simpl in *; [ reflexivity | ].
  destruct (Ascii.eqb c "."); [ discriminate | ].
  intros H. rewrite (IH H). reflexivity.
Qed.

Lemma resolve_language_split (p r : string) :
  str_has_dot p = false ->
  2 < Z.of_nat (String.length (p ++ "." ++ r)) ->
  resolve_language (PStr (p ++ "." ++ r)) =
    if in_supported_langs p then Ok (p, PStr r)
    else Ok (DEFAULT_LANG_CODE, PStr (p ++ "." ++ r)).
Proof.
  intros Hp Hlen. apply Z.ltb_lt in Hlen.
  unfold resolve_language. cbn [has_dot bindR].
  rewrite str_has_dot_app. cbn [len bindR]. rewrite Hlen.
  cbn [split_dot1 bindR]. rewrite (str_split_dot1_app p r Hp).
  cbn [index nth_error bindR].
  destruct (in_supported_langs p); reflexivity.
Qed.

(** C1.  A voice string that contains a dot and is longer than two
    characters is cut at its first dot.  When the part before the dot is a
    key of [supported_langs], the language resolved at lines 227-233 is that
    part and the voice is what follows the dot; otherwise the language is
    the default one and the voice is the whole string, dot included.  The
    parameters of every request carrying that voice are resolved the same
    way, and it is the resolved voice that line 248 validates. *)
Theorem C1_voice_language_prefix (voice : string) :
  str_has_dot voice = true ->
  2 < Z.of_nat (String.length voice) ->
  exists prefix rest,
    voice = prefix ++ "." ++ rest /\
    str_has_dot prefix = false /\
    (In prefix (map fst supported_langs) ->
       resolve_language (PStr voice) = Ok (prefix, PStr rest)) /\
    (~ In prefix (map fst supported_langs) ->
       resolve_language (PStr voice) = Ok (DEFAULT_LANG_CODE, PStr voice)) /\
    (forall w d ps,
       assoc "voice" d = Some (PStr voice) ->
       extract_params w (PDict d) = Ok ps ->
       (In prefix (map fst supported_langs) ->
          p_lang ps = prefix /\ p_voice ps = PStr rest) /\
       (~ In prefix (map fst supported_langs) ->
          p_lang ps = DEFAULT_LANG_CODE /\ p_voice ps = PStr voice)).
Proof.
  intros Hdot Hlen.
  destruct (first_dot_exists voice Hdot) as (p & r & Hs & Hp).
  exists p, r. subst voice.
  pose proof (resolve_language_split p r Hp Hlen) as Hres.
  pose proof (in_supported_langs_keys p) as Hkeys.
  assert (Hyes : In p (map fst supported_langs) ->
                 resolve_language (PStr (p ++ "." ++ r)) = Ok (p, PStr r)).
  { intros Hin. apply Hkeys in Hin. now rewrite Hin in Hres. }
  assert (Hno : ~ In p (map fst supported_langs) ->
                resolve_language (PStr (p ++ "." ++ r))
                = Ok (DEFAULT_LANG_CODE, PStr (p ++ "." ++ r))).
  { intros Hnin. destruct (in_supported_langs p) eqn:Hk; trivial.
    exfalso. apply Hnin, Hkeys. reflexivity. }
  repeat split; trivial.
  - unfold extract_params in H0. cbn [get bindR] in H0. rewrite H in H0.
    destruct (py_float w _); [ | discriminate ].
    rewrite (Hyes H1) in H0. inversion H0. reflexivity.
  - unfold extract_params in H0. cbn [get bindR] in H0. rewrite H in H0.
    destruct (py_float w _); [ | discriminate ].
    rewrite (Hyes H1) in H0. inversion H0. reflexivity.
  - unfold extract_params in H0. cbn [get bindR] in H0. rewrite H in H0.
    destruct (py_float w _); [ | discriminate ].
    rewrite (Hno H1) in H0. inversion H0. reflexivity.
  - unfold extract_params in H0. cbn [get bindR] in H0. rewrite H in H0.
    destruct (py_float w _); [ | discriminate ].
    rewrite (Hno H1) in H0. inversion H0. reflexivity.
Qed.

Lemma C1_voice_language_prefix_witness :
  exists prefix rest,
    "b.bm_lewis" = prefix ++ "." ++ rest /\
    str_has_dot prefix = false /\
    (In prefix (map fst supported_langs) ->
       resolve_language (PStr "b.bm_lewis") = Ok (prefix, PStr rest)) /\
    (~ In prefix (map fst supported_langs) ->
       resolve_language (PStr "b.bm_lewis")
       = Ok (DEFAULT_LANG_CODE, PStr "b.bm_lewis")) /\
    (forall w d ps,
       assoc "voice" d = Some (PStr "b.bm_lewis") ->
       extract_params w (PDict d) = Ok ps ->
       (In prefix (map fst supported_langs) ->
          p_lang ps = prefix /\ p_voice ps = PStr rest) /\
       (~ In prefix (map fst supported_langs) ->
          p_lang ps = DEFAULT_LANG_CODE /\ p_voice ps = PStr "b.bm_lewis")).
Proof.
  apply (C1_voice_language_prefix "b.bm_lewis"); [ reflexivity | simpl; lia ].
Defined.

(* ================================================================== *)
(** ** The language table *)

(** C9.  [GET /v1/languages] answers 200 with a list of nine entries, one
    for each key of [supported_langs] and no key twice, each pairing the
    code with its name, in the order of the table. *)
Theorem C9_list_languages :
  list_languages =
    JsonResponse
      (PDict
         [ ("object", PStr "list");
           ("data",
            PList
              [ PDict [("code", PStr "a"); ("name", PStr "American English")];
                PDict [("code", PStr "b"); ("name", PStr "British English")];
                PDict [("code", PStr "e"); ("name", PStr "Spanish")];
                PDict [("code", PStr "f"); ("name", PStr "French")];
                PDict [("code", PStr "h"); ("name", PStr "Hindi")];
                PDict [("code", PStr "i"); ("name", PStr "Italian")];
                PDict [("code", PStr "p"); ("name", PStr "Brazilian Portuguese")];
                PDict [("code", PStr "j"); ("name", PStr "Japanese")];
                PDict [("code", PStr "z"); ("name", PStr "Mandarin Chinese")] ]) ])
      200
  /\ List.length supported_langs = 9%nat
  /\ NoDup (map fst supported_langs)
  /\ (forall i code name,
        nth_error supported_langs i = Some (code, name) ->
        exists entries,
          get (match list_languages with
               | JsonResponse body _ => body
               | _ => PNone
               end) "data" PNone = Ok (PList entries) /\
          nth_error entries i
          = Some (PDict [("code", PStr code); ("name", PStr name)])).
Proof.
  split; [ reflexivity | ]. split; [ reflexivity | ]. split.
  - simpl. repeat constructor; simpl; intuition discriminate.
  - intros i code name H. eexists. split; [ reflexivity | ].
    rewrite nth_error_map, H. reflexivity.
Qed.

(* ================================================================== *)
(** ** The format converter *)

(** C4.  Given a format name outside [SUPPORTED_FORMATS], the converter
    raises nothing of its own: it takes the mp3 branch, so that its outcome
    is the outcome of the mp3 encoder on the same samples and rate, the one
    it has for the format name ["mp3"]. *)
Theorem C4_unsupported_format_is_mp3 (w : World) (audio : Audio) (rate : Z)
    (fmt : pyval) (g : Globals) :
  in_strs fmt SUPPORTED_FORMATS = false ->
  convert_audio_format w audio rate fmt g
    = (encode_mp3 w (samples_of audio) rate, g, [EvConvert audio rate fmt]) /\
  fst (fst (convert_audio_format w audio rate fmt g))
    = fst (fst (convert_audio_format w audio rate (PStr "mp3") g)).
Proof.
  intros Hfmt. unfold convert_audio_format. run_monad. rewrite Hfmt.
  cbn [negb in_strs existsb SUPPORTED_FORMATS eq_str String.eqb Ascii.eqb
       Bool.eqb orb fst snd].
  destruct audio; simpl; destruct (encode_mp3 w samples rate); auto.
Qed.

Lemma C4_unsupported_format_is_mp3_witness :
  convert_audio_format demo_world (Tensor [f32_half]) 24000 (PStr "xml")
                       initial_globals
    = (encode_mp3 demo_world (samples_of (Tensor [f32_half])) 24000,
       initial_globals, [EvConvert (Tensor [f32_half]) 24000 (PStr "xml")]) /\
  fst (fst (convert_audio_format demo_world (Tensor [f32_half]) 24000
                                 (PStr "xml") initial_globals))
    = fst (fst (convert_audio_format demo_world (Tensor [f32_half]) 24000
                                     (PStr "mp3") initial_globals)).
Proof.
  apply (C4_unsupported_format_is_mp3 demo_world (Tensor [f32_half]) 24000
                                      (PStr "xml") initial_globals).
  reflexivity.
Defined.

(* ================================================================== *)
(** ** The synthesizer *)

Lemma concat_sample_count (segs : list Audio) :
  List.length (List.concat (map samples_of segs))
  = list_sum (map sample_count segs).
Proof.
  induction segs as [ | a segs IH]; simpl; [ reflexivity | ].
  rewrite length_app, IH. reflexivity.
Qed.

(** What lines 118-123 build from at least one segment. *)
Lemma combine_segments_nonempty (segs : list Audio) :
  (1 <= List.length segs)%nat ->
  exists combined,
    combine_segments segs = Ok combined /\
    samples_of combined = List.concat (map samples_of segs).
Proof.
  unfold combine_segments.
  destruct segs as [ | a [ | b segs]]; simpl List.length; intros Hn.
  - inversion Hn.
  - exists a. split; [ reflexivity | ]. simpl. now rewrite app_nil_r.
  - exists (np_concatenate (a :: b :: segs)). split; [ | reflexivity ].
    replace (1 <? Z.of_nat (S (S (List.length segs)))) with true; trivial.
    symmetry. apply Z.ltb_lt. lia.
Qed.

Lemma combine_segments_empty :
  combine_segments [] = Raise (Exn "IndexError" "list index out of range").
Proof. reflexivity. Qed.

Lemma combine_segments_ok (segs : list Audio) (a : Audio) :
  combine_segments segs = Ok a -> segs <> [].
Proof. intros H ->. discriminate H. Qed.

(** C6.  When the loaded pipeline yields [N >= 1] segments,
    [generate_speech] joins them into one buffer, which holds the samples of
    the segments end to end in the order they were yielded; its sample
    count is the sum of theirs, and it is this buffer that is handed to the
    converter, at 24000 Hz. *)
Theorem C6_segments_joined_in_order (w : World) (text voice : pyval)
    (lang : string) (fmt : pyval) (speed : spec_float) (g : Globals)
    (p : Pipeline) (segs : list Audio) :
  tts_pipeline g = Some p ->
  pipeline_call p text voice speed = Ok segs ->
  (1 <= List.length segs)%nat ->
  exists combined encoded,
    combine_segments segs = Ok combined /\
    samples_of combined = List.concat (map samples_of segs) /\
    sample_count combined = list_sum (map sample_count segs) /\
    convert_audio_format w combined 24000 fmt g
      = (encoded, g, [EvConvert combined 24000 fmt]) /\
    generate_speech w text voice lang fmt speed g
      = (bindR encoded (fun b => Ok (b, fmt)), g,
         [EvSynth p text voice lang speed; EvConvert combined 24000 fmt]).
Proof.
  intros Hp Hcall Hn.
  destruct (combine_segments_nonempty segs Hn) as (combined & Hc & Hs).
  destruct (convert_audio_format_run w combined 24000 fmt g) as [encoded He].
  exists combined, encoded. repeat split; trivial.
  - unfold sample_count at 1. rewrite Hs. apply concat_sample_count.
  - rewrite (generate_speech_loaded w text voice lang fmt speed g p Hp).
    rewrite Hcall, Hc, He. reflexivity.
Qed.

Lemma C6_segments_joined_in_order_witness :
  exists combined encoded,
    combine_segments demo_segments = Ok combined /\
    samples_of combined = List.concat (map samples_of demo_segments) /\
    sample_count combined = list_sum (map sample_count demo_segments) /\
    convert_audio_format demo_world combined 24000 (PStr "pcm") (demo_loaded "a")
      = (encoded, demo_loaded "a", [EvConvert combined 24000 (PStr "pcm")]) /\
    generate_speech demo_world (PStr "hi") (PStr "af_heart") "a" (PStr "pcm")
                    f64_one (demo_loaded "a")
      = (bindR encoded (fun b => Ok (b, PStr "pcm")), demo_loaded "a",
         [EvSynth (demo_pipeline "a") (PStr "hi") (PStr "af_heart") "a" f64_one;
          EvConvert combined 24000 (PStr "pcm")]).
Proof.
  apply (C6_segments_joined_in_order demo_world (PStr "hi") (PStr "af_heart")
           "a" (PStr "pcm") f64_one (demo_loaded "a") (demo_pipeline "a")
           demo_segments).
  - reflexivity.
  - reflexivity.
  - simpl. lia.
Defined.

(** The runs of [generate_speech]: a failed load, or an invocation of the
    pipeline held by the global, preceded by a load when none was held. *)
Lemma generate_speech_cases (w : World) (text voice : pyval) (lang : string)
    (fmt : pyval) (speed : spec_float) (g : Globals) r g1 t :
  generate_speech w text voice lang fmt speed g = (r, g1, t) ->
  (exists e, r = Raise e /\ t = [EvLoad lang]) \/
  (exists p pre,
     tts_pipeline g1 = Some p /\
     (pre = [] \/ pre = [EvLoad lang]) /\
     ((exists e, pipeline_call p text voice speed = Raise e /\ r = Raise e /\
                 t = (pre ++ [EvSynth p text voice lang speed])%list) \/
      (exists segs e, pipeline_call p text voice speed = Ok segs /\
                      combine_segments segs = Raise e /\ r = Raise e /\
                      t = (pre ++ [EvSynth p text voice lang speed])%list) \/
      (exists segs combined encoded,
         pipeline_call p text voice speed = Ok segs /\
         combine_segments segs = Ok combined /\
         r = bindR encoded (fun b => Ok (b, fmt)) /\
         t = (pre ++ [EvSynth p text voice lang speed;
                      EvConvert combined 24000 fmt])%list))).
Proof.
  assert (Hloaded : forall g0 p pre r0 g2 t0,
    tts_pipeline g0 = Some p ->
    (pre = [] \/ pre = [EvLoad lang]) ->
    generate_speech w text voice lang fmt speed g0 = (r0, g2, t0) ->
    exists p pre,
     tts_pipeline g2 = Some p /\
     (pre = [] \/ pre = [EvLoad lang]) /\
     ((exists e, pipeline_call p text voice speed = Raise e /\ r0 = Raise e /\
                 (pre ++ t0)%list = (pre ++ [EvSynth p text voice lang speed])%list) \/
      (exists segs e, pipeline_call p text voice speed = Ok segs /\
                      combine_segments segs = Raise e /\ r0 = Raise e /\
                      (pre ++ t0)%list = (pre ++ [EvSynth p text voice lang speed])%list) \/
      (exists segs combined encoded,
         pipeline_call p text voice speed = Ok segs /\
         combine_segments segs = Ok combined /\
         r0 = bindR encoded (fun b => Ok (b, fmt)) /\
         (pre ++ t0)%list = (pre ++ [EvSynth p text voice lang speed;
                      EvConvert combined 24000 fmt])%list))).
  { intros g0 p pre r0 g2 t0 Hp Hpre.
    rewrite (generate_speech_loaded w text voice lang fmt speed g0 p Hp).
    destruct (pipeline_call p text voice speed) as [segs | e] eqn:Hcall.
    2:{ intros H; inversion H; subst. exists p, pre. repeat split; trivial.
        left. exists e. auto. }
    destruct (combine_segments segs) as [combined | e] eqn:Hc.
    2:{ intros H; inversion H; subst. exists p, pre. repeat split; trivial.
        right; left. exists segs, e. auto. }
    destruct (convert_audio_format_run w combined 24000 fmt g0) as [enc He].
    rewrite He. intros H; inversion H; subst. exists p, pre.
    repeat split; trivial. right; right. exists segs, combined, enc. auto. }
  destruct (tts_pipeline g) as [p | ] eqn:Hp.
  - intros H. right.
    destruct (Hloaded g p [] r g1 t Hp (or_introl eq_refl) H)
      as (p' & pre & H1 & H2 & H3).
    exists p', []. simpl in H3. repeat split; auto.
    destruct H3 as [(e & ? & ? & ?) | [(s & e & ? & ? & ? & ?) | (s & c & en & ? & ? & ? & ?)]];
      [ left | right; left | right; right ]; repeat eexists; eauto;
      eapply app_inv_head; eauto.
  - unfold generate_speech. run_monad. rewrite Hp, load_pipeline_run.
    destruct (kokoro_model w lang) as [f | e].
    2:{ intros H; inversion H; subst. left. exists e. auto. }
    cbv zeta. destruct (torch_cuda_is_available w) as [b | e].
    2:{ intros H; inversion H; subst. left. exists e. auto. }
    cbn [tts_pipeline]. set (p := mkPipeline lang f).
    set (g0 := mkGlobals (Some p) (Some (get_supported_voices lang))).
    destruct (pipeline_call p text voice speed) as [segs | e] eqn:Hcall.
    2:{ intros H; inversion H; subst. right. exists p, [EvLoad lang].
        repeat split; auto. left. exists e. auto. }
    destruct (combine_segments segs) as [combined | e] eqn:Hc.
    2:{ intros H; inversion H; subst. right. exists p, [EvLoad lang].
        repeat split; auto. right; left. exists segs, e. auto. }
    destruct (convert_audio_format_run w combined 24000 fmt g0) as [enc He].
    rewrite He. intros H. right. exists p, [EvLoad lang].
    assert (Hg1 : g1 = g0) by (destruct enc; inversion H; reflexivity).
    subst g1. repeat split; auto. right; right. exists segs, combined, enc.
    repeat split; trivial; destruct enc; inversion H; reflexivity.
Qed.

(** C10.  When the pipeline that [generate_speech] invokes yields no
    segment, the indexing of line 123 raises [IndexError] and the converter
    is never entered; conversely the converter is entered only with the
    buffer built from a non-empty run of segments, and bytes are returned
    only after the converter was entered. *)
Theorem C10_no_segment_no_audio (w : World) (text voice : pyval)
    (lang : string) (fmt : pyval) (speed : spec_float) (g : Globals)
    r g1 t :
  generate_speech w text voice lang fmt speed g = (r, g1, t) ->
  (forall p,
     In (EvSynth p text voice lang speed) t ->
     pipeline_call p text voice speed = Ok [] ->
     r = Raise (Exn "IndexError" "list index out of range") /\
     forall ev, In ev t -> is_convert ev = false) /\
  (forall a rate f,
     In (EvConvert a rate f) t ->
     exists p segs,
       In (EvSynth p text voice lang speed) t /\
       pipeline_call p text voice speed = Ok segs /\
       segs <> [] /\
       combine_segments segs = Ok a) /\
  (forall content f,
     r = Ok (content, f) -> exists a rate, In (EvConvert a rate f) t).
Proof.
  intros Hrun.
  destruct (generate_speech_cases _ _ _ _ _ _ _ _ _ _ Hrun)
    as [(e & Hr & Ht) | (p & pre & Hp & Hpre & Hcases)].
  { subst.
    split; [ intros p0 Hin Hempty | split; [ intros a rate f Hin | intros content f Hok ] ].
    - in_trace. discriminate.
    - in_trace. discriminate.
    - discriminate. }
  assert (Hsame : forall p0 rest,
             (forall ev, In ev rest -> is_synth ev = false) ->
             In (EvSynth p0 text voice lang speed)
                (pre ++ EvSynth p text voice lang speed :: rest) ->
             p0 = p).
  { intros p0 rest Hrest Hin. apply in_app_or in Hin.
    destruct Hin as [Hin | [Hin | Hin]].
    - destruct Hpre; subst pre; in_trace. discriminate.
    - inversion Hin. reflexivity.
    - apply Hrest in Hin. discriminate. }
  assert (Hpre_conv : forall ev, In ev pre -> is_convert ev = false).
  { intros ev Hin. destruct Hpre; subst pre; in_trace. subst ev. reflexivity. }
  destruct Hcases as [(e & Hcall & Hr & Ht)
                     | [(segs & e & Hcall & Hc & Hr & Ht)
                       | (segs & combined & enc & Hcall & Hc & Hr & Ht)]];
    subst t;
    (split; [ intros p0 Hin Hempty | split; [ intros a rate f Hin | intros content f Hok ] ]).
  - apply (Hsame p0 []) in Hin; [ | intros ev [] ]. subst p0. congruence.
  - apply in_app_or in Hin. destruct Hin as [Hin | Hin].
    + apply Hpre_conv in Hin. discriminate.
    + in_trace. discriminate.
  - congruence.
  - apply (Hsame p0 []) in Hin; [ | intros ev [] ]. subst p0.
    rewrite Hcall in Hempty. inversion Hempty; subst segs.
    rewrite combine_segments_empty in Hc. inversion Hc; subst e.
    split; trivial. intros ev Hin. apply in_app_or in Hin.
    destruct Hin as [Hin | Hin]; [ now apply Hpre_conv | ].
    in_trace. subst ev. reflexivity.
  - apply in_app_or in Hin. destruct Hin as [Hin | Hin].
    + apply Hpre_conv in Hin. discriminate.
    + in_trace. discriminate.
  - congruence.
  - assert (Hp0 : p0 = p).
    { apply (Hsame p0 [EvConvert combined 24000 fmt]); trivial.
      intros ev [<- | []]. reflexivity. }
    subst p0. rewrite Hcall in Hempty. inversion Hempty; subst segs.
    discriminate Hc.
  - exists p, segs.
    assert (Ha : a = combined).
    { apply in_app_or in Hin. destruct Hin as [Hin | Hin].
      - apply Hpre_conv in Hin. discriminate.
      - in_trace; [ discriminate | ]. inversion H. reflexivity. }
    subst a. repeat split; trivial.
    + apply in_or_app. right. left. reflexivity.
    + eapply combine_segments_ok; eauto.
  - exists combined, 24000.
    assert (Hf : f = fmt).
    { subst r. destruct enc; simpl in Hok; inversion Hok; reflexivity. }
    subst f. apply in_or_app. right. right. left. reflexivity.
Qed.

Lemma C10_no_segment_no_audio_witness :
  (forall p,
     In (EvSynth p (PStr "silence") (PStr "af_heart") "a" f64_one)
        [EvSynth (demo_pipeline "a") (PStr "silence") (PStr "af_heart") "a" f64_one] ->
     pipeline_call p (PStr "silence") (PStr "af_heart") f64_one = Ok [] ->
     @Raise (bytes * pyval) (Exn "IndexError" "list index out of range")
       = Raise (Exn "IndexError" "list index out of range") /\
     forall ev,
       In ev [EvSynth (demo_pipeline "a") (PStr "silence") (PStr "af_heart") "a" f64_one] ->
       is_convert ev = false) /\
  (forall a rate f,
     In (EvConvert a rate f)
        [EvSynth (demo_pipeline "a") (PStr "silence") (PStr "af_heart") "a" f64_one] ->
     exists p segs,
       In (EvSynth p (PStr "silence") (PStr "af_heart") "a" f64_one)
          [EvSynth (demo_pipeline "a") (PStr "silence") (PStr "af_heart") "a" f64_one] /\
       pipeline_call p (PStr "silence") (PStr "af_heart") f64_one = Ok segs /\
       segs <> [] /\
       combine_segments segs = Ok a) /\
  (forall (content : bytes) (f : pyval),
     Raise (Exn "IndexError" "list index out of range") = Ok (content, f) ->
     exists a rate,
       In (EvConvert a rate f)
          [EvSynth (demo_pipeline "a") (PStr "silence") (PStr "af_heart") "a" f64_one]).
Proof.
  apply (C10_no_segment_no_audio demo_world (PStr "silence") (PStr "af_heart")
           "a" (PStr "mp3") f64_one (demo_loaded "a")
           (Raise (Exn "IndexError" "list index out of range"))
           (demo_loaded "a")).
  reflexivity.
Defined.

(* ================================================================== *)
(** ** Raw PCM *)





Lemma pcm_bytes_length (w : World) (samples : list spec_float) :
  List.length (pcm_bytes w samples) = (2 * List.length samples)%nat.
Proof.
  unfold pcm_bytes. induction samples as [ | s l IH]; [ reflexivity | ].
  cbn [flat_map List.length]. rewrite length_app, IH.
  unfold le16. cbn [List.length]. lia.
Qed.


Lemma convert_audio_format_pcm (w : World) (audio : Audio) (rate : Z)
    (g : Globals) :
  convert_audio_format w audio rate (PStr "pcm") g
  = (Ok (pcm_bytes w (samples_of audio)), g, [EvConvert audio rate (PStr "pcm")]).
Proof.
  unfold convert_audio_format. run_monad. destruct audio; reflexivity.
Qed.


(* ================================================================== *)
(** ** The handler, run by run *)

(** What a reconciliation that went through left behind. *)
Lemma reconciled_inv (w : World) (data : pyval) (g : Globals) ps g1 t1 vs :
  reconciled w data g ps g1 t1 vs ->
  exists p,
    tts_pipeline g1 = Some p /\ lang_code p = p_lang ps /\
    ((needs_reload g (p_lang ps) = false /\ g1 = g /\ t1 = []) \/
     (needs_reload g (p_lang ps) = true /\ t1 = [EvLoad (p_lang ps)] /\
      exists f, kokoro_model w (p_lang ps) = Ok f /\
                g1 = mkGlobals (Some (mkPipeline (p_lang ps) f))
                               (Some (get_supported_voices (p_lang ps))))).
Proof.
  intros (_ & _ & _ & Hrec & _).
  destruct (reconcile_ok _ _ _ _ _ _ Hrec) as (p & vs' & Hp & _ & Hl & Hc).
  exists p. auto.
Qed.

Lemma reconciled_params (w : World) (data : pyval) (g : Globals) ps g1 t1 vs :
  reconciled w data g ps g1 t1 vs -> extract_params w data = Ok ps.
Proof. intros (_ & H & _). exact H. Qed.

Lemma synthesizing_inv (w : World) (data : pyval) (g : Globals) ps g1 t1 p :
  synthesizing w data g ps g1 t1 p ->
  extract_params w data = Ok ps /\
  tts_pipeline g1 = Some p /\ lang_code p = p_lang ps /\
  ((needs_reload g (p_lang ps) = false /\ g1 = g /\ t1 = []) \/
   (needs_reload g (p_lang ps) = true /\ t1 = [EvLoad (p_lang ps)] /\
    exists f, kokoro_model w (p_lang ps) = Ok f /\
              g1 = mkGlobals (Some (mkPipeline (p_lang ps) f))
                             (Some (get_supported_voices (p_lang ps))))).
Proof.
  intros [(vs & Hrec & _) (_ & _ & Hp)].
  destruct (reconciled_inv _ _ _ _ _ _ _ Hrec) as (p' & Hp' & Hl & Hc).
  assert (p' = p) by congruence. subst p'.
  repeat split; trivial. eapply reconciled_params; eauto.
Qed.

(** A trace of the calls made up to the reconciliation holds at most a
    load. *)
Lemma reconciled_trace (w : World) (data : pyval) (g : Globals) ps g1 t1 vs :
  reconciled w data g ps g1 t1 vs ->
  t1 = [] \/ t1 = [EvLoad (p_lang ps)].
Proof.
  intros H. destruct (reconciled_inv _ _ _ _ _ _ _ H) as (p & _ & _ & Hc).
  destruct Hc as [(_ & _ & Ht) | (_ & Ht & _)]; auto.
Qed.

(** C3.  A 400 answer of [POST /v1/audio/speech] is one of the four client
    errors (invalid JSON, missing input, unsupported voice, unsupported
    format); its body is a JSON object with the single field [error], a
    string; and by the time it is returned the pipeline has not been
    invoked and the converter has not been entered: the only call that may
    have been made is the load of line 245, which precedes the voice and
    format checks. *)
Theorem C3_client_errors_precede_synthesis (w : World) (data : pyval)
    (g : Globals) body g1 t :
  create_speech w data g = (Ok (JsonResponse body 400), g1, t) ->
  (exists msg,
     body = PDict [("error", PStr msg)] /\
     ((data = PNone /\ msg = "Invalid JSON") \/
      (exists ps,
         extract_params w data = Ok ps /\
         ((truthy (p_text ps) = false /\
           msg = "Missing required parameter: input") \/
          (exists vs,
             supported_voices g1 = Some vs /\
             in_strs (p_voice ps) vs = false /\
             msg = voice_error w (p_voice ps) (p_lang ps) vs) \/
          (in_strs (p_format ps) SUPPORTED_FORMATS = false /\
           msg = format_error w (p_format ps)))))) /\
  (forall ev, In ev t -> is_synth ev = false /\ is_convert ev = false) /\
  (t = [] \/ exists lang, t = [EvLoad lang]).
Proof.
  intros Hrun.
  destruct (create_speech_outcome w data g) as (resp & g2 & t2 & Heq & Hout).
  rewrite Heq in Hrun. inversion Hrun; subst resp g2 t2. clear Hrun Heq.
  assert (Hload : forall lang ev,
             In ev [EvLoad lang] -> is_synth ev = false /\ is_convert ev = false).
  { intros lang ev [<- | []]. split; reflexivity. }
  assert (Htr : forall ps vs,
             reconciled w data g ps g1 t vs ->
             (forall ev, In ev t -> is_synth ev = false /\ is_convert ev = false) /\
             (t = [] \/ exists lang, t = [EvLoad lang])).
  { intros ps vs Hrec.
    destruct (reconciled_trace _ _ _ _ _ _ _ Hrec) as [-> | ->].
    - split; [ intros ev [] | auto ].
    - split; [ apply Hload | right; eexists; reflexivity ]. }
  unfold error_response in Hout.
  inversion Hout; subst; try discriminate.
  - split; [ | split; [ intros ev [] | auto ] ].
    eexists. split; [ reflexivity | ]. left. auto.
  - split; [ | split; [ intros ev [] | auto ] ].
    eexists. split; [ reflexivity | ]. right. exists ps. auto.
  - split; [ | eapply Htr; eauto ].
    eexists. split; [ reflexivity | ]. right. exists ps.
    split; [ eapply reconciled_params; eauto | ].
    right; left. exists vs. repeat split; trivial.
    match goal with H : reconciled _ _ _ _ _ _ _ |- _ => apply H end.
  - split; [ | eapply Htr; eauto ].
    eexists. split; [ reflexivity | ]. right. exists ps.
    split; [ eapply reconciled_params; eauto | ]. right; right. auto.
Qed.

Lemma C3_client_errors_precede_synthesis_witness :
  (exists msg,
     PDict [("error", PStr "Missing required parameter: input")]
     = PDict [("error", PStr msg)] /\
     ((request_empty_input = PNone /\ msg = "Invalid JSON") \/
      (exists ps,
         extract_params demo_world request_empty_input = Ok ps /\
         ((truthy (p_text ps) = false /\
           msg = "Missing required parameter: input") \/
          (exists vs,
             supported_voices (demo_loaded "b") = Some vs /\
             in_strs (p_voice ps) vs = false /\
             msg = voice_error demo_world (p_voice ps) (p_lang ps) vs) \/
          (in_strs (p_format ps) SUPPORTED_FORMATS = false /\
           msg = format_error demo_world (p_format ps)))))) /\
  (forall ev, In ev [] -> is_synth ev = false /\ is_convert ev = false) /\
  (@nil Event = [] \/ exists lang, [] = [EvLoad lang]).
Proof.
  apply (C3_client_errors_precede_synthesis demo_world request_empty_input
           (demo_loaded "b")
           (PDict [("error", PStr "Missing required parameter: input")])
           (demo_loaded "b") []).
  reflexivity.
Defined.

Lemma mismatch_needs_reload (g : Globals) (lang : string) :
  (forall q, tts_pipeline g = Some q -> lang_code q <> lang) ->
  needs_reload g lang = true.
Proof.
  intros Hq. unfold needs_reload.
  destruct (supported_voices g); trivial.
  destruct (tts_pipeline g) as [q | ]; trivial.
  destruct (String.eqb (lang_code q) lang) eqn:He; trivial.
  apply String.eqb_eq in He. exfalso. exact (Hq q eq_refl He).
Qed.

(** Where the pipeline is invoked in a run of the handler. *)
Lemma outcome_synth (w : World) (data : pyval) (g : Globals) resp g1 t
    p text voice lang speed :
  Outcome w data g resp g1 t ->
  In (EvSynth p text voice lang speed) t ->
  exists ps t1 rest,
    synthesizing w data g ps g1 t1 p /\
    EvSynth p text voice lang speed = synth_event ps p /\
    t = (t1 ++ synth_event ps p :: rest)%list /\
    (forall ev, In ev rest -> is_synth ev = false).
Proof.
  intros Hout Hin.
  assert (Hpre : forall ps g2 t1 vs,
             reconciled w data g ps g2 t1 vs ->
             ~ In (EvSynth p text voice lang speed) t1).
  { intros ps g2 t1 vs Hrec Habs.
    destruct (reconciled_trace _ _ _ _ _ _ _ Hrec) as [-> | ->];
      in_trace; discriminate. }
  assert (Hfound : forall ps t1 p0 rest,
             synthesizing w data g ps g1 t1 p0 ->
             (forall ev, In ev rest -> is_synth ev = false) ->
             In (EvSynth p text voice lang speed)
                (t1 ++ synth_event ps p0 :: rest) ->
             exists ps' t1' rest',
               synthesizing w data g ps' g1 t1' p /\
               EvSynth p text voice lang speed = synth_event ps' p /\
               (t1 ++ synth_event ps p0 :: rest)%list
               = (t1' ++ synth_event ps' p :: rest')%list /\
               (forall ev, In ev rest' -> is_synth ev = false)).
  { intros ps t1 p0 rest Hsyn Hrest Hin'.
    apply in_app_or in Hin'. destruct Hin' as [Hin' | [Hin' | Hin']].
    - exfalso. destruct Hsyn as [(vs & Hrec & _) _].
      exact (Hpre _ _ _ _ Hrec Hin').
    - unfold synth_event in Hin'. inversion Hin'; subst.
      exists ps, t1, rest. auto.
    - apply Hrest in Hin'. discriminate. }
  inversion Hout; subst; try (destruct Hin; fail).
  - exfalso. apply reconcile_raise in H2. destruct H2 as [_ ->].
    in_trace; discriminate.
  - exfalso. eapply Hpre; eauto.
  - exfalso. eapply Hpre; eauto.
  - exfalso. eapply Hpre; eauto.
  - eapply Hfound; eauto. intros ev [].
  - eapply Hfound; eauto. intros ev [].
  - eapply Hfound; eauto. intros ev [<- | []]. reflexivity.
  - eapply Hfound; eauto. intros ev [<- | []]. reflexivity.
Qed.

(** C2, as amended.  Whenever a run of [POST /v1/audio/speech] that no other
    request overlaps invokes the pipeline, the pipeline invoked is the one
    held by the global [tts_pipeline] and its language code is the language
    resolved for the request.  If, when the request arrived, no pipeline
    was held or the one held was bound to another language, the run began
    with a load for the resolved language that built a new handle and
    assigned both globals, the handle and the voice list of that language,
    before the invocation.  When another request reloads between the check
    of line 243 and the call of line 107, the pipeline invoked can be bound
    to another language than the one resolved: the last section of the file
    runs such a schedule. *)
Theorem C2_pipeline_language_invariant (w : World) (data : pyval)
    (g : Globals) resp g1 t p text voice lang speed :
  create_speech w data g = (Ok resp, g1, t) ->
  In (EvSynth p text voice lang speed) t ->
  (exists ps,
     extract_params w data = Ok ps /\
     lang = p_lang ps /\ text = p_text ps /\ voice = p_voice ps /\
     speed = p_speed ps) /\
  tts_pipeline g1 = Some p /\
  lang_code p = lang /\
  ((forall q, tts_pipeline g = Some q -> lang_code q <> lang) ->
     exists f rest,
       kokoro_model w lang = Ok f /\
       p = mkPipeline lang f /\
       g1 = mkGlobals (Some p) (Some (get_supported_voices lang)) /\
       t = EvLoad lang :: EvSynth p text voice lang speed :: rest /\
       (forall ev, In ev rest -> is_synth ev = false)) /\
  (needs_reload g lang = false ->
     g1 = g /\
     exists rest, t = EvSynth p text voice lang speed :: rest).
Proof.
  intros Hrun Hin.
  destruct (create_speech_outcome w data g) as (resp' & g2 & t2 & Heq & Hout).
  rewrite Heq in Hrun. inversion Hrun; subst resp' g2 t2. clear Hrun Heq.
  destruct (outcome_synth _ _ _ _ _ _ _ _ _ _ _ Hout Hin)
    as (ps & t1 & rest & Hsyn & Hev & Ht & Hrest).
  unfold synth_event in Hev. inversion Hev; subst text voice lang speed.
  destruct (synthesizing_inv _ _ _ _ _ _ _ Hsyn) as (Hps & Hp & Hl & Hc).
  split; [ exists ps; auto | ].
  split; [ exact Hp | ]. split; [ exact Hl | ].
  split.
  - intros Hmis. apply mismatch_needs_reload in Hmis.
    destruct Hc as [(Hn & _) | (_ & Ht1 & f & Hf & Hg1)]; [ congruence | ].
    exists f, rest. subst t1 t.
    assert (Hpf : p = mkPipeline (p_lang ps) f).
    { rewrite Hg1 in Hp. inversion Hp. reflexivity. }
    repeat split; trivial. rewrite Hg1, Hpf. reflexivity.
  - intros Hn.
    destruct Hc as [(_ & Hg & Ht1) | (Hn' & _)]; [ | congruence ].
    subst t1 t. split; trivial. exists rest. reflexivity.
Qed.

Lemma C2_pipeline_language_invariant_witness :
  (exists ps,
     extract_params demo_world request_british = Ok ps /\
     "b" = p_lang ps /\ PStr "hi" = p_text ps /\ PStr "en_male_1" = p_voice ps /\
     f64_one = p_speed ps) /\
  tts_pipeline (demo_loaded "b") = Some (demo_pipeline "b") /\
  lang_code (demo_pipeline "b") = "b" /\
  ((forall q, tts_pipeline (demo_loaded "a") = Some q -> lang_code q <> "b") ->
     exists f rest,
       kokoro_model demo_world "b" = Ok f /\
       demo_pipeline "b" = mkPipeline "b" f /\
       demo_loaded "b"
       = mkGlobals (Some (demo_pipeline "b")) (Some (get_supported_voices "b")) /\
       [EvLoad "b"; british_pipeline_call;
        EvConvert (np_concatenate demo_segments) 24000 (PStr "mp3")]
       = EvLoad "b" :: british_pipeline_call :: rest /\
       (forall ev, In ev rest -> is_synth ev = false)) /\
  (needs_reload (demo_loaded "a") "b" = false ->
     demo_loaded "b" = demo_loaded "a" /\
     exists rest,
       [EvLoad "b"; british_pipeline_call;
        EvConvert (np_concatenate demo_segments) 24000 (PStr "mp3")]
       = british_pipeline_call :: rest).
Proof.
  apply (C2_pipeline_language_invariant demo_world request_british
           (demo_loaded "a")
           (FileResponse [Byte.x49; Byte.x44; Byte.x33] "audio/mp3" "speech.mp3")
           (demo_loaded "b")
           [EvLoad "b"; british_pipeline_call;
            EvConvert (np_concatenate demo_segments) 24000 (PStr "mp3")]
           (demo_pipeline "b") (PStr "hi") (PStr "en_male_1") "b" f64_one).
  - reflexivity.
  - simpl. right. left. reflexivity.
Defined.

(* ================================================================== *)
(** ** Parameters of the request *)

Lemma extract_params_dict (w : World) (d : list (string * pyval)) :
  extract_params w (PDict d) =
    (speed <-? py_float w (match assoc "speed" d with
                           | Some v => v
                           | None => PFloat f64_one
                           end) ;;
     lv <-? resolve_language (match assoc "voice" d with
                              | Some v => v
                              | None => PStr DEFAULT_VOICE
                              end) ;;
     Ok (mkParams (match assoc "input" d with Some v => v | None => PNone end)
                  (snd lv) (fst lv)
                  (match assoc "response_format" d with
                   | Some v => v
                   | None => PStr "mp3"
                   end)
                  speed)).
Proof. reflexivity. Qed.

Lemma extract_params_speed (w : World) (d : list (string * pyval)) ps :
  extract_params w (PDict d) = Ok ps ->
  py_float w (match assoc "speed" d with
              | Some v => v
              | None => PFloat f64_one
              end) = Ok (p_speed ps).
Proof.
  rewrite extract_params_dict. unfold bindR.
  destruct (py_float w _) as [speed | ]; [ | discriminate ].
  destruct (resolve_language _); [ | discriminate ].
  intros H; inversion H. reflexivity.
Qed.

Lemma create_speech_param_error (w : World) (data : pyval) (g : Globals) e :
  data <> PNone ->
  extract_params w data = Raise e ->
  create_speech w data g = (Ok (error_response (exn_str e) 500), g, []).
Proof.
  intros Hd He. unfold create_speech, try_except.
  rewrite (create_speech_try_raise w data g e Hd He). reflexivity.
Qed.

Lemma non_numeric_raises (w : World) (v : pyval) :
  non_numeric w v = true -> exists e, py_float w v = Raise e.
Proof.
  destruct v; simpl; try discriminate; try (intros _; eexists; reflexivity).
  destruct (float_of_str w s); [ discriminate | ].
  intros _. eexists; reflexivity.
Qed.

(** The arguments of a pipeline call are the parameters of the request. *)
Lemma pipeline_call_params (w : World) (data : pyval) (g : Globals) resp g1 t
    p text voice lang speed :
  create_speech w data g = (Ok resp, g1, t) ->
  In (EvSynth p text voice lang speed) t ->
  exists ps, extract_params w data = Ok ps /\ speed = p_speed ps.
Proof.
  intros Hrun Hin.
  destruct (create_speech_outcome w data g) as (resp' & g2 & t2 & Heq & Hout).
  rewrite Heq in Hrun. inversion Hrun; subst resp' g2 t2.
  destruct (outcome_synth _ _ _ _ _ _ _ _ _ _ _ Hout Hin)
    as (ps & t1 & rest & Hsyn & Hev & _).
  unfold synth_event in Hev. inversion Hev.
  exists ps. split; trivial.
  now destruct (synthesizing_inv _ _ _ _ _ _ _ Hsyn).
Qed.

(** C8.  [speed] is [float(data.get('speed', 1.0))]: when the request has no
    [speed] the pipeline is invoked with 1.0, and when it has one the
    pipeline is invoked with its conversion to a float.  When the conversion
    raises, as it does on every value that is not a number (null, a list,
    an object, a string outside the grammar of [float]), the handler stops
    there, before any call, and answers 500 with the message of the
    exception in the field [error]. *)
Theorem C8_speed_default_and_coercion (w : World) (d : list (string * pyval))
    (g : Globals) :
  py_float w (PFloat f64_one) = Ok f64_one /\
  f64_one = S754_finite false 4503599627370496 (-52) /\
  (forall resp g1 t p text voice lang speed,
     assoc "speed" d = None ->
     create_speech w (PDict d) g = (Ok resp, g1, t) ->
     In (EvSynth p text voice lang speed) t ->
     speed = f64_one) /\
  (forall v resp g1 t p text voice lang speed,
     assoc "speed" d = Some v ->
     create_speech w (PDict d) g = (Ok resp, g1, t) ->
     In (EvSynth p text voice lang speed) t ->
     py_float w v = Ok speed) /\
  (forall v e,
     assoc "speed" d = Some v ->
     py_float w v = Raise e ->
     create_speech w (PDict d) g
     = (Ok (error_response (exn_str e) 500), g, [])) /\
  (forall v,
     assoc "speed" d = Some v ->
     non_numeric w v = true ->
     exists e,
       py_float w v = Raise e /\
       create_speech w (PDict d) g
       = (Ok (JsonResponse (PDict [("error", PStr (exn_str e))]) 500), g, [])).
Proof.
  assert (Hspeed : forall resp g1 t p text voice lang speed,
             create_speech w (PDict d) g = (Ok resp, g1, t) ->
             In (EvSynth p text voice lang speed) t ->
             py_float w (match assoc "speed" d with
                         | Some v => v
                         | None => PFloat f64_one
                         end) = Ok speed).
  { intros resp g1 t p text voice lang speed Hrun Hin.
    destruct (pipeline_call_params w (PDict d) g resp g1 t p text voice lang speed
                Hrun Hin) as (ps & Hps & Hs).
    subst speed. now apply extract_params_speed. }
  assert (Hraise : forall v e,
             assoc "speed" d = Some v ->
             py_float w v = Raise e ->
             create_speech w (PDict d) g
             = (Ok (error_response (exn_str e) 500), g, [])).
  { intros v e Hv He. apply create_speech_param_error; [ discriminate | ].
    rewrite extract_params_dict, Hv, He. reflexivity. }
  split; [ reflexivity | ]. split; [ reflexivity | ].
  split.
  { intros resp g1 t p text voice lang speed Hnone Hrun Hin.
    pose proof (Hspeed _ _ _ _ _ _ _ _ Hrun Hin) as H.
    rewrite Hnone in H. inversion H. reflexivity. }
  split.
  { intros v resp g1 t p text voice lang speed Hv Hrun Hin.
    pose proof (Hspeed _ _ _ _ _ _ _ _ Hrun Hin) as H.
    rewrite Hv in H. exact H. }
  split; [ exact Hraise | ].
  intros v Hv Hnn. destruct (non_numeric_raises w v Hnn) as [e He].
  exists e. split; trivial. exact (Hraise v e Hv He).
Qed.



(** A request whose text is falsy is answered as a missing input, or with
    the error raised while its other parameters were read. *)
Lemma create_speech_falsy_text (w : World) (data : pyval) (g : Globals) :
  data <> PNone ->
  (forall ps, extract_params w data = Ok ps -> truthy (p_text ps) = false) ->
  create_speech w data g =
    match extract_params w data with
    | Ok _ => (Ok (error_response "Missing required parameter: input" 400), g, [])
    | Raise e => (Ok (error_response (exn_str e) 500), g, [])
    end.
Proof.
  intros Hd Hfalsy.
  destruct (extract_params w data) as [ps | e] eqn:He.
  - unfold create_speech, try_except.
    rewrite (create_speech_try_run w data g ps Hd He).
    rewrite (Hfalsy ps eq_refl). reflexivity.
  - now apply create_speech_param_error.
Qed.


(* ================================================================== *)
(** ** Concrete runs *)

(** A voice with an unknown prefix keeps its dot, the language falls back to
    the default one, and the pipeline is loaded for it before the voice is
    rejected. *)
Example unknown_prefix_run :
  create_speech demo_world
                (PDict [("input", PStr "hi"); ("voice", PStr "x.en_male_1")])
                (demo_loaded "b")
  = (Ok (error_response
           (voice_error demo_world (PStr "x.en_male_1") "a"
                        (get_supported_voices "a")) 400),
     demo_loaded "a", [EvLoad "a"]).
Proof. reflexivity. Qed.

(** Three samples, 0.5, 1.0 and 2.0, as raw PCM: 16383, 32767 and, on a
    platform whose cast wraps, -2. *)
Example pcm_run :
  create_speech demo_world
                (PDict [("input", PStr "hi"); ("response_format", PStr "pcm")])
                initial_globals
  = (Ok (FileResponse [Byte.xff; Byte.x3f; Byte.xff; Byte.x7f; Byte.xfe; Byte.xff]
                      "audio/pcm" "speech.pcm"),
     demo_loaded "a",
     [EvLoad "a";
      EvSynth (demo_pipeline "a") (PStr "hi") (PStr "af_heart") "a" f64_one;
      EvConvert (np_concatenate demo_segments) 24000 (PStr "pcm")]).
Proof. reflexivity. Qed.

Example non_numeric_speed_run :
  create_speech demo_world (PDict request_fast) (demo_loaded "a")
  = (Ok (error_response "could not convert string to float: 'fast'" 500),
     demo_loaded "a", []).
Proof. reflexivity. Qed.

Example no_segment_run :
  create_speech demo_world (PDict [("input", PStr "silence")]) (demo_loaded "a")
  = (Ok (error_response "list index out of range" 500),
     demo_loaded "a",
     [EvSynth (demo_pipeline "a") (PStr "silence") (PStr "af_heart") "a" f64_one]).
Proof. reflexivity. Qed.

(* ================================================================== *)
(** ** The voice registry *)

Lemma distinct_NoDup (l : list string) : distinct l = true -> NoDup l.
Proof.
  induction l as [ | x l IH]; simpl; intros H; constructor.
  - apply andb_prop in H. destruct H as [H _].
    intros Hin. apply negb_true_iff in H.
    assert (Hex : existsb (String.eqb x) l = true).
    { apply existsb_exists. exists x. split; trivial. apply String.eqb_refl. }
    congruence.
  - apply IH. apply andb_prop in H. tauto.
Qed.


(** X1.  Whatever the language code, [get_supported_voices] returns a list
    that is not empty and has no repeated entry, and none of its identifiers
    is empty or contains a dot; it has 28 entries for ["a"] and 4 for every
    other code. *)
Theorem get_supported_voices_wellformed (lang : string) :
  get_supported_voices lang <> [] /\
  NoDup (get_supported_voices lang) /\
  (forall v, In v (get_supported_voices lang) ->
             v <> "" /\ str_has_dot v = false) /\
  List.length (get_supported_voices lang)
  = (if String.eqb lang "a" then 28 else 4)%nat.
Proof.
  unfold get_supported_voices.
  destruct (String.eqb lang "a").
  - split; [ discriminate | ].
    split; [ apply distinct_NoDup; reflexivity | ].
    split; [ | reflexivity ].
    intros v Hin.
    assert (Hall : forallb (fun v => negb (String.eqb v "") && negb (str_has_dot v))
                     (get_supported_voices "a") = true) by reflexivity.
    rewrite forallb_forall in Hall. specialize (Hall v Hin).
    apply andb_prop in Hall. destruct Hall as [H1 H2].
    apply negb_true_iff in H1, H2. apply String.eqb_neq in H1. auto.
  - split; [ discriminate | ].
    split; [ apply distinct_NoDup; reflexivity | ].
    split; [ | reflexivity ].
    intros v Hin.
    assert (Hall : forallb (fun v => negb (String.eqb v "") && negb (str_has_dot v))
                     (get_supported_voices "b") = true) by reflexivity.
    rewrite forallb_forall in Hall. specialize (Hall v Hin).
    apply andb_prop in Hall. destruct Hall as [H1 H2].
    apply negb_true_iff in H1, H2. apply String.eqb_neq in H1. auto.
Qed.

(* ================================================================== *)
(** ** Resolution of the language, in general *)

Lemma resolve_language_str (s : string) :
  resolve_language (PStr s) = Ok (DEFAULT_LANG_CODE, PStr s) \/
  exists p r,
    s = p ++ "." ++ r /\ str_has_dot p = false /\
    in_supported_langs p = true /\
    2 < Z.of_nat (String.length s) /\
    resolve_language (PStr s) = Ok (p, PStr r).
Proof.
  destruct (str_has_dot s) eqn:Hdot.
  - destruct (2 <? Z.of_nat (String.length s)) eqn:Hlen.
    + apply Z.ltb_lt in Hlen.
      destruct (first_dot_exists s Hdot) as (p & r & Hs & Hp). subst s.
      rewrite (resolve_language_split p r Hp Hlen).
      destruct (in_supported_langs p) eqn:Hk; [ right | left; reflexivity ].
      exists p, r. rewrite Hk. auto.
    + left. unfold resolve_language. cbn [has_dot len bindR].
      rewrite Hdot. cbn [bindR]. rewrite Hlen. reflexivity.
  - left. unfold resolve_language. cbn [has_dot bindR].
    rewrite Hdot. reflexivity.
Qed.

Lemma known_code_length (p : string) :
  in_supported_langs p = true -> String.length p = 1%nat.
Proof.
  intros H. apply in_supported_langs_keys in H. simpl in H.
  repeat (destruct H as [<- | H]; [ reflexivity | ]). destruct H.
Qed.

Lemma length_append (a b : string) :
  String.length (a ++ b) = (String.length a + String.length b)%nat.
Proof. induction a as [ | c a IH]; simpl; [ reflexivity | now rewrite IH ]. Qed.

(** X2.  When lines 227-233 go through, the language they resolve is one of
    the keys of [supported_langs]; and either it is the default one with the
    voice left as it was, or the voice was a string [lang.rest] longer than
    two characters, and the voice left is [rest], which is then not empty.
    On a string they always go through. *)
Theorem resolve_language_results (voice : pyval) (lang : string) (v : pyval) :
  resolve_language voice = Ok (lang, v) ->
  In lang (map fst supported_langs) /\
  ((lang = DEFAULT_LANG_CODE /\ v = voice) \/
   (exists s rest,
      voice = PStr s /\ v = PStr rest /\ s = lang ++ "." ++ rest /\
      str_has_dot lang = false /\ rest <> "")) /\
  (forall s, exists l r, resolve_language (PStr s) = Ok (l, r)).
Proof.
  intros Hres.
  assert (Hdefault : In DEFAULT_LANG_CODE (map fst supported_langs))
    by (left; reflexivity).
  split; [ | split ].
  - destruct voice;
      try (unfold resolve_language in Hres; simpl in Hres; discriminate Hres).
    + destruct (resolve_language_str s) as [H | (p & r & _ & _ & Hk & _ & H)];
        rewrite H in Hres; inversion Hres; subst; trivial.
      now apply in_supported_langs_keys.
    + unfold resolve_language in Hres. cbn [has_dot len bindR] in Hres.
      destruct (existsb _ l); cbn [bindR] in Hres;
        [ destruct (2 <? _); cbn [split_dot1 bindR] in Hres | ];
        inversion Hres; subst; trivial.
    + unfold resolve_language in Hres. cbn [has_dot len bindR] in Hres.
      destruct (assoc "." d); cbn [bindR] in Hres;
        [ destruct (2 <? _); cbn [split_dot1 bindR] in Hres | ];
        inversion Hres; subst; trivial.
  - destruct voice;
      try (unfold resolve_language in Hres; simpl in Hres; discriminate Hres).
    + destruct (resolve_language_str s) as [H | (p & r & Hs & Hp & Hk & Hlen & H)];
        rewrite H in Hres; inversion Hres; subst; [ left; auto | right ].
      exists (lang ++ "." ++ r), r. repeat split; trivial.
      intros ->. rewrite length_append, (known_code_length _ Hk) in Hlen.
      simpl in Hlen. lia.
    + unfold resolve_language in Hres. cbn [has_dot len bindR] in Hres.
      destruct (existsb _ l); cbn [bindR] in Hres;
        [ destruct (2 <? _); cbn [split_dot1 bindR] in Hres | ];
        inversion Hres; subst; left; auto.
    + unfold resolve_language in Hres. cbn [has_dot len bindR] in Hres.
      destruct (assoc "." d); cbn [bindR] in Hres;
        [ destruct (2 <? _); cbn [split_dot1 bindR] in Hres | ];
        inversion Hres; subst; left; auto.
  - intros s.
    destruct (resolve_language_str s) as [H | (p & r & _ & _ & _ & _ & H)];
      rewrite H; eexists; eexists; reflexivity.
Qed.

Lemma resolve_language_results_witness :
  In "z" (map fst supported_langs) /\
  (("z" = DEFAULT_LANG_CODE /\ PStr "en_male_2" = PStr "z.en_male_2") \/
   (exists s rest,
      PStr "z.en_male_2" = PStr s /\ PStr "en_male_2" = PStr rest /\
      s = "z" ++ "." ++ rest /\ str_has_dot "z" = false /\ rest <> "")) /\
  (forall s, exists l r, resolve_language (PStr s) = Ok (l, r)).
Proof.
  apply (resolve_language_results (PStr "z.en_male_2") "z" (PStr "en_male_2")).
  reflexivity.
Defined.

Lemma resolve_language_short (s : string) :
  (2 <? Z.of_nat (String.length s)) = false ->
  resolve_language (PStr s) = Ok (DEFAULT_LANG_CODE, PStr s).
Proof.
  intros Hlen. unfold resolve_language. cbn [has_dot len bindR].
  destruct (str_has_dot s); cbn [bindR]; [ rewrite Hlen | ]; reflexivity.
Qed.

Lemma no_dot_known_code (p : string) :
  in_supported_langs p = true -> str_has_dot p = false.
Proof.
  intros H. apply in_supported_langs_keys in H. simpl in H.
  repeat (destruct H as [<- | H]; [ reflexivity | ]). destruct H.
Qed.

(** X3.  The codes that [GET /v1/languages] lists are exactly the prefixes
    that [create_speech] strips from a voice: a dot-free [code] followed by a
    dot and a non-empty [rest] resolves to the language [code] and the voice
    [rest] if and only if [code] is the code of an entry of the listing. *)
Theorem listed_languages_are_the_prefixes (code rest : string) :
  str_has_dot code = false ->
  rest <> "" ->
  (resolve_language (PStr (code ++ "." ++ rest)) = Ok (code, PStr rest)
   <->
   exists name entries,
     get (match list_languages with
          | JsonResponse body _ => body
          | _ => PNone
          end) "data" PNone = Ok (PList entries) /\
     In (PDict [("code", PStr code); ("name", PStr name)]) entries).
Proof.
  intros Hcode Hrest.
  assert (Hlisted : (exists name entries,
             get (match list_languages with
                  | JsonResponse body _ => body
                  | _ => PNone
                  end) "data" PNone = Ok (PList entries) /\
             In (PDict [("code", PStr code); ("name", PStr name)]) entries)
           <-> in_supported_langs code = true).
  { rewrite in_supported_langs_keys.
    assert (Hdata : get (match list_languages with
                         | JsonResponse body _ => body
                         | _ => PNone
                         end) "data" PNone
                    = Ok (PList (map (fun kv => PDict [ ("code", PStr (fst kv));
                                                        ("name", PStr (snd kv)) ])
                                     supported_langs))) by reflexivity.
    rewrite Hdata. clear Hdata. split.
    - intros (name & entries & Hget & Hin).
      assert (He : entries
                   = map (fun kv => PDict [ ("code", PStr (fst kv));
                                            ("name", PStr (snd kv)) ])
                         supported_langs) by congruence.
      rewrite He in Hin. clear He Hget.
      apply in_map_iff in Hin. destruct Hin as ([c n] & Heq & Hin).
      inversion Heq; subst. apply in_map_iff. exists (code, name). auto.
    - intros Hin. apply in_map_iff in Hin. destruct Hin as ([c n] & Heq & Hin).
      simpl in Heq. subst c. exists n. eexists. split; [ reflexivity | ].
      apply in_map_iff. exists (code, n). auto. }
  rewrite Hlisted.
  assert (Hneq : PStr (code ++ "." ++ rest) <> PStr rest).
  { intros H. inversion H as [Hs]. apply (f_equal String.length) in Hs.
    rewrite length_append in Hs. simpl in Hs. lia. }
  split.
  - intros Hres.
    destruct (2 <? Z.of_nat (String.length (code ++ "." ++ rest))) eqn:Hlen.
    + apply Z.ltb_lt in Hlen.
      rewrite (resolve_language_split code rest Hcode Hlen) in Hres.
      destruct (in_supported_langs code); trivial.
      inversion Hres. congruence.
    + rewrite (resolve_language_short _ Hlen) in Hres.
      inversion Hres. congruence.
  - intros Hk.
    assert (Hlen : 2 < Z.of_nat (String.length (code ++ "." ++ rest))).
    { rewrite length_append, (known_code_length _ Hk).
      destruct rest; [ congruence | simpl; lia ]. }
    rewrite (resolve_language_split code rest Hcode Hlen), Hk. reflexivity.
Qed.

Lemma listed_languages_are_the_prefixes_witness :
  resolve_language (PStr ("j" ++ "." ++ "en_male_1")) = Ok ("j", PStr "en_male_1")
  <->
  exists name entries,
    get (match list_languages with
         | JsonResponse body _ => body
         | _ => PNone
         end) "data" PNone = Ok (PList entries) /\
    In (PDict [("code", PStr "j"); ("name", PStr name)]) entries.
Proof.
  apply (listed_languages_are_the_prefixes "j" "en_male_1");
    [ reflexivity | discriminate ].
Defined.

(* ================================================================== *)
(** ** What the handler reads of the body *)

(** Two bodies with the same parameters are answered alike. *)
Lemma create_speech_same_params (w : World) (d1 d2 : pyval) (g : Globals) :
  d1 <> PNone -> d2 <> PNone ->
  extract_params w d1 = extract_params w d2 ->
  create_speech w d1 g = create_speech w d2 g.
Proof.
  intros H1 H2 He. unfold create_speech, try_except.
  destruct (extract_params w d2) as [ps | e] eqn:H.
  - rewrite (create_speech_try_run w d1 g ps H1 He),
            (create_speech_try_run w d2 g ps H2 H). reflexivity.
  - rewrite (create_speech_try_raise w d1 g e H1 He),
            (create_speech_try_raise w d2 g e H2 H). reflexivity.
Qed.

(** X4.  The handler reads four keys of the body, [input], [voice],
    [response_format] and [speed]: giving any other key, [model] included,
    any value changes neither the answer, nor the globals, nor the calls
    made. *)
Theorem other_keys_are_ignored (w : World) (g : Globals) (k : string)
    (v : pyval) (d : list (string * pyval)) :
  ~ In k read_keys ->
  create_speech w (PDict ((k, v) :: d)) g = create_speech w (PDict d) g.
Proof.
  intros Hk. apply create_speech_same_params; try discriminate.
  rewrite !extract_params_dict. cbn [assoc].
  assert (Hne : forall k', In k' read_keys -> String.eqb k' k = false).
  { intros k' Hin. apply String.eqb_neq. intros ->. exact (Hk Hin). }
  rewrite (Hne "input"), (Hne "voice"), (Hne "response_format"), (Hne "speed");
    simpl; auto.
Qed.

Lemma other_keys_are_ignored_witness :
  create_speech demo_world (PDict [("model", PStr "tts-1"); ("input", PStr "hi")])
                initial_globals
  = create_speech demo_world (PDict [("input", PStr "hi")]) initial_globals.
Proof.
  apply (other_keys_are_ignored demo_world initial_globals "model"
           (PStr "tts-1") [("input", PStr "hi")]).
  simpl. intros H.
  repeat (destruct H as [H | H]; [ discriminate H | ]). exact H.
Defined.

(* ================================================================== *)
(** ** Answers of [POST /v1/audio/speech] *)

Lemma in_strs_In (v : pyval) (l : list string) :
  in_strs v l = true <-> exists s, v = PStr s /\ In s l.
Proof.
  unfold in_strs. rewrite existsb_exists. split.
  - intros (s & Hin & Heq). destruct v; try discriminate.
    simpl in Heq. apply String.eqb_eq in Heq. subst. eauto.
  - intros (s & -> & Hin). exists s. split; trivial. apply String.eqb_refl.
Qed.

(** X5.  A body that is valid JSON but not an object (a list, a string, a
    number, a boolean) is answered 500 with the message of the
    [AttributeError] raised by [data.get]; the globals are left as they were
    and nothing is called. *)
Theorem non_object_body_is_500 (w : World) (data : pyval) (g : Globals) :
  data <> PNone ->
  (forall d, data <> PDict d) ->
  create_speech w data g
  = (Ok (error_response
           ("'" ++ type_name data ++ "' object has no attribute 'get'") 500),
     g, []).
Proof.
  intros Hn Hd.
  assert (He : extract_params w data = Raise (AttributeError data "get")).
  { destruct data; try reflexivity. exfalso. eapply Hd; eauto. }
  rewrite (create_speech_param_error w data g _ Hn He). reflexivity.
Qed.

Lemma non_object_body_is_500_witness :
  create_speech demo_world (PList [PStr "hi"]) initial_globals
  = (Ok (error_response
           ("'" ++ type_name (PList [PStr "hi"]) ++ "' object has no attribute 'get'")
           500),
     initial_globals, []).
Proof.
  apply (non_object_body_is_500 demo_world (PList [PStr "hi"]) initial_globals);
    [ discriminate | intros d; discriminate ].
Defined.

(** X6.  When the parameters of a request are read without error and its
    [input] is falsy (absent, null, false, 0, 0.0, the empty string, list or
    object), the answer is the 400 of the missing input, whatever the voice
    and the format are; no pipeline is loaded and the globals are left as
    they were. *)
Theorem falsy_input_is_missing_input (w : World) (data : pyval) (g : Globals)
    (ps : Params) :
  extract_params w data = Ok ps ->
  truthy (p_text ps) = false ->
  create_speech w data g
  = (Ok (error_response "Missing required parameter: input" 400), g, []).
Proof.
  intros Hps Ht.
  assert (Hn : data <> PNone) by (intros ->; discriminate Hps).
  rewrite (create_speech_falsy_text w data g Hn).
  - rewrite Hps. reflexivity.
  - intros ps' Hps'. congruence.
Qed.

Lemma falsy_input_is_missing_input_witness :
  create_speech demo_world
    (PDict [("input", PInt 0); ("voice", PStr "nobody");
            ("response_format", PStr "xml")])
    initial_globals
  = (Ok (error_response "Missing required parameter: input" 400),
     initial_globals, []).
Proof.
  apply (falsy_input_is_missing_input demo_world
           (PDict [("input", PInt 0); ("voice", PStr "nobody");
                   ("response_format", PStr "xml")])
           initial_globals
           (mkParams (PInt 0) (PStr "nobody") "a" (PStr "xml") f64_one));
    reflexivity.
Defined.

Lemma mimetype_of_supported (w : World) (fmt : string) :
  In fmt SUPPORTED_FORMATS -> mimetype_of w (PStr fmt) = "audio/" ++ fmt.
Proof.
  simpl. intros H.
  repeat (destruct H as [<- | H]; [ reflexivity | ]). destruct H.
Qed.

(** X7.  [create_speech] never lets an exception out.  Its answer is either
    a file whose content type is [audio/<format>] and whose name is
    [speech.<format>], for one of the six supported formats, or a JSON
    object with the single field [error] and the status 400 or 500. *)
Theorem create_speech_answers (w : World) (data : pyval) (g : Globals) :
  exists resp g1 t,
    create_speech w data g = (Ok resp, g1, t) /\
    ((exists content fmt,
        In fmt SUPPORTED_FORMATS /\
        resp = FileResponse content ("audio/" ++ fmt) ("speech." ++ fmt)) \/
     (exists msg,
        resp = JsonResponse (PDict [("error", PStr msg)]) 400 \/
        resp = JsonResponse (PDict [("error", PStr msg)]) 500)).
Proof.
  destruct (create_speech_outcome w data g) as (resp & g1 & t & Heq & Hout).
  exists resp, g1, t. split; trivial.
  inversion Hout; subst;
    try (right; eexists; unfold error_response; auto; fail).
  left.
  match goal with
  | H : synthesizing _ _ _ _ _ _ _ |- _ => destruct H as (_ & Hfmt & _)
  end.
  apply in_strs_In in Hfmt. destruct Hfmt as (fmt & Hf & Hin).
  exists content, fmt. split; trivial.
  rewrite Hf, (mimetype_of_supported w fmt Hin). reflexivity.
Qed.

(* ================================================================== *)
(** ** The globals across requests *)

Lemma consistent_loaded (lang : string) f :
  consistent (mkGlobals (Some (mkPipeline lang f))
                        (Some (get_supported_voices lang))).
Proof.
  split; simpl.
  - intros p Hp. inversion Hp. reflexivity.
  - intros vs Hvs. inversion Hvs. eauto.
Qed.

Lemma consistent_initial : consistent initial_globals.
Proof. split; simpl; intros ? H; discriminate H. Qed.

Lemma load_pipeline_consistent (w : World) (lang : string) (g : Globals) r g1 t :
  consistent g -> load_pipeline w lang g = (r, g1, t) -> consistent g1.
Proof.
  intros Hg Hload. apply load_pipeline_globals in Hload.
  destruct Hload as [_ [(e & _ & _ & ->) | (f & _ & ->)]]; trivial.
  apply consistent_loaded.
Qed.

(** What a run of the handler does to the globals: nothing, or the
    assignment of both by a load that built its model. *)
Lemma create_speech_globals (w : World) (data : pyval) (g : Globals) r g1 t :
  create_speech w data g = (r, g1, t) ->
  g1 = g \/
  exists lang f,
    kokoro_model w lang = Ok f /\
    g1 = mkGlobals (Some (mkPipeline lang f)) (Some (get_supported_voices lang)) /\
    In (EvLoad lang) t.
Proof.
  intros Hrun.
  destruct (create_speech_outcome w data g) as (resp & g2 & t2 & Heq & Hout).
  rewrite Heq in Hrun. inversion Hrun; subst r g2 t2. clear Hrun Heq.
  assert (Hrec : forall ps g' t1 vs,
             reconciled w data g ps g' t1 vs ->
             forall rest,
             g' = g \/
             exists lang f,
               kokoro_model w lang = Ok f /\
               g' = mkGlobals (Some (mkPipeline lang f))
                              (Some (get_supported_voices lang)) /\
               In (EvLoad lang) (t1 ++ rest)).
  { intros ps g' t1 vs H rest.
    destruct (reconciled_inv _ _ _ _ _ _ _ H) as (p & _ & _ & Hc).
    destruct Hc as [(_ & -> & _) | (_ & -> & f & Hf & ->)]; [ left; trivial | ].
    right. exists (p_lang ps), f. repeat split; trivial. left. reflexivity. }
  assert (Hsyn : forall ps g' t1 p,
             synthesizing w data g ps g' t1 p ->
             forall rest,
             g' = g \/
             exists lang f,
               kokoro_model w lang = Ok f /\
               g' = mkGlobals (Some (mkPipeline lang f))
                              (Some (get_supported_voices lang)) /\
               In (EvLoad lang) (t1 ++ rest)).
  { intros ps g' t1 p [(vs & H & _) _]. eapply Hrec; eauto. }
  inversion Hout; subst; try (left; reflexivity);
    try (rewrite <- (app_nil_r t); eapply Hrec; eauto; fail);
    try (eapply Hsyn; eauto; fail).
  match goal with
  | H : reconcile _ _ _ = (Raise _, _, _) |- _ =>
      rewrite reconcile_run in H;
      destruct (needs_reload g (p_lang ps)); [ | discriminate H ];
      apply load_pipeline_globals in H;
      destruct H as [-> [(e' & _ & _ & ->) | (f & Hf & ->)]];
      [ left; reflexivity | right ]
  end.
  exists (p_lang ps), f. repeat split; trivial. left. reflexivity.
Qed.

Lemma create_speech_consistent (w : World) (data : pyval) (g : Globals) r g1 t :
  consistent g -> create_speech w data g = (r, g1, t) -> consistent g1.
Proof.
  intros Hg Hrun.
  destruct (create_speech_globals _ _ _ _ _ _ Hrun) as [-> | (l & f & _ & -> & _)];
    trivial. apply consistent_loaded.
Qed.

Lemma health_check_run (g : Globals) :
  health_check g =
    let g1 := match supported_voices g with
              | None => mkGlobals (tts_pipeline g)
                                  (Some (get_supported_voices DEFAULT_LANG_CODE))
              | Some _ => g
              end in
    (Ok (JsonResponse
           (PDict [ ("status", PStr "ok");
                    ("model", PStr MODEL_ID);
                    ("supported_languages",
                     PDict (map (fun kv => (fst kv, PStr (snd kv))) supported_langs));
                    ("supported_voices", voices_json (supported_voices g1));
                    ("supported_formats", PList (map PStr SUPPORTED_FORMATS)) ])
           200), g1, []).
Proof.
  unfold health_check. run_monad.
  destruct (supported_voices g); reflexivity.
Qed.

Lemma health_check_consistent (g : Globals) r g1 t :
  consistent g -> health_check g = (r, g1, t) -> consistent g1.
Proof.
  intros Hg. rewrite health_check_run. cbv zeta.
  destruct (supported_voices g) as [vs | ] eqn:Hvs;
    intros H; inversion H; subst; trivial.
  destruct Hg as [H1 _]. split; simpl.
  - intros p Hp. specialize (H1 p Hp). congruence.
  - intros vs Hv. inversion Hv. eauto.
Qed.

Lemma main_preload_run (w : World) :
  main_preload w initial_globals =
    match kokoro_model w DEFAULT_LANG_CODE with
    | Raise _ => (Ok tt, initial_globals, [EvLoad DEFAULT_LANG_CODE])
    | Ok f =>
        (Ok tt,
         mkGlobals (Some (mkPipeline DEFAULT_LANG_CODE f))
                   (Some (get_supported_voices DEFAULT_LANG_CODE)),
         [EvLoad DEFAULT_LANG_CODE])
    end.
Proof.
  unfold main_preload, try_except. rewrite load_pipeline_run.
  destruct (kokoro_model w DEFAULT_LANG_CODE); [ | reflexivity ].
  cbv zeta. destruct (torch_cuda_is_available w); reflexivity.
Qed.

(** X8.  A run of any of the four handlers that nothing overlaps, started
    from consistent globals, leaves consistent globals: after it the voice
    list held is still a list of [get_supported_voices], and the list of the
    language of the pipeline held when there is one. *)
Theorem handlers_keep_globals_consistent (w : World) (req : Request)
    (g : Globals) r g1 t :
  consistent g ->
  handle w req g = (r, g1, t) ->
  consistent g1.
Proof.
  intros Hg Hstep. destruct req; simpl in Hstep.
  - eapply create_speech_consistent; eauto.
  - inversion Hstep; subst; trivial.
  - inversion Hstep; subst; trivial.
  - eapply health_check_consistent; eauto.
Qed.

Lemma handlers_keep_globals_consistent_witness : consistent (demo_loaded "b").
Proof.
  apply (handlers_keep_globals_consistent demo_world (PostSpeech request_british)
           (demo_loaded "a")
           (Ok (FileResponse [Byte.x49; Byte.x44; Byte.x33] "audio/mp3"
                             "speech.mp3"))
           (demo_loaded "b")
           [EvLoad "b"; british_pipeline_call;
            EvConvert (np_concatenate demo_segments) 24000 (PStr "mp3")]).
  - split; simpl.
    + intros q Hq. inversion Hq. reflexivity.
    + intros vs Hvs. inversion Hvs. exists "a". reflexivity.
  - reflexivity.
Defined.





(* ================================================================== *)
(** ** Loads: when they happen and what a failed one leaves *)

Lemma create_speech_reconcile_raise (w : World) (data : pyval) (g : Globals)
    ps e g1 t1 :
  extract_params w data = Ok ps ->
  truthy (p_text ps) = true ->
  reconcile w (p_lang ps) g = (Raise e, g1, t1) ->
  create_speech w data g = (Ok (error_response (exn_str e) 500), g1, t1).
Proof.
  intros Hps Ht Hrec.
  assert (Hn : data <> PNone) by (intros ->; discriminate Hps).
  unfold create_speech, try_except.
  rewrite (create_speech_try_run w data g ps Hn Hps), Ht, Hrec.
  cbn [negb]. unfold ret. rewrite app_nil_r. reflexivity.
Qed.

(** X10.  When a request needs a pipeline for its language and the model
    cannot be built, the answer is 500 with the message of that failure and
    both globals are as they were: the pipeline held before, if any, is
    still the one in place. *)
Theorem failed_load_keeps_globals (w : World) (data : pyval) (g : Globals)
    (ps : Params) (e : exn) :
  extract_params w data = Ok ps ->
  truthy (p_text ps) = true ->
  needs_reload g (p_lang ps) = true ->
  kokoro_model w (p_lang ps) = Raise e ->
  create_speech w data g
  = (Ok (error_response (exn_str e) 500), g, [EvLoad (p_lang ps)]).
Proof.
  intros Hps Ht Hn Hk.
  apply (create_speech_reconcile_raise w data g ps e g _ Hps Ht).
  rewrite reconcile_run, Hn, load_pipeline_run, Hk. reflexivity.
Qed.

Lemma failed_load_keeps_globals_witness :
  create_speech world_without_kokoro request_british (demo_loaded "a")
  = (Ok (error_response (exn_str no_kokoro) 500), demo_loaded "a",
     [EvLoad (p_lang (mkParams (PStr "hi") (PStr "en_male_1") "b" (PStr "mp3")
                               f64_one))]).
Proof.
  apply (failed_load_keeps_globals world_without_kokoro request_british
           (demo_loaded "a")
           (mkParams (PStr "hi") (PStr "en_male_1") "b" (PStr "mp3") f64_one)
           no_kokoro); reflexivity.
Defined.

(** A request whose language needs no reload leaves the globals alone and
    loads nothing. *)
Lemma no_reload_run (w : World) (data : pyval) (g : Globals) r g1 t :
  (forall ps, extract_params w data = Ok ps ->
              truthy (p_text ps) = true ->
              needs_reload g (p_lang ps) = false) ->
  create_speech w data g = (r, g1, t) ->
  g1 = g /\ forall ev, In ev t -> is_load ev = false.
Proof.
  intros Hno Hrun.
  destruct (create_speech_outcome w data g) as (resp & g2 & t2 & Heq & Hout).
  rewrite Heq in Hrun. inversion Hrun; subst r g2 t2. clear Hrun Heq.
  assert (Hrec : forall ps g' t1 vs,
             reconciled w data g ps g' t1 vs -> g' = g /\ t1 = []).
  { intros ps g' t1 vs H.
    pose proof H as (_ & Hps & Ht & _).
    destruct (reconciled_inv _ _ _ _ _ _ _ H) as (p & _ & _ & Hc).
    destruct Hc as [(_ & -> & ->) | (Hn & _)]; auto.
    rewrite (Hno ps Hps Ht) in Hn. discriminate. }
  assert (Hsyn : forall ps g' t1 p,
             synthesizing w data g ps g' t1 p -> g' = g /\ t1 = []).
  { intros ps g' t1 p [(vs & H & _) _]. eapply Hrec; eauto. }
  inversion Hout; subst;
    try (split; [ reflexivity | intros ev [] ]; fail);
    try (match goal with
         | H : reconciled _ _ _ _ _ _ _ |- _ =>
             destruct (Hrec _ _ _ _ H) as [-> ->]
         end; split; [ reflexivity | intros ev [] ]; fail);
    try (match goal with
         | H : synthesizing _ _ _ _ _ _ _ |- _ =>
             destruct (Hsyn _ _ _ _ H) as [-> ->]
         end; split; [ reflexivity | ];
         intros ev Hin; simpl in Hin;
         repeat (destruct Hin as [<- | Hin]; [ reflexivity | ]);
         destruct Hin; fail).
  match goal with
  | H : reconcile _ _ _ = (Raise _, _, _) |- _ =>
      apply reconcile_raise in H; destruct H as [Hn _]
  end.
  match goal with
  | H1 : extract_params _ _ = Ok ?ps, H2 : truthy _ = true |- _ =>
      rewrite (Hno ps H1 H2) in Hn
  end.
  discriminate.
Qed.

(** X11.  When the model is built but the GPU probe that follows raises, the
    answer is 500 although both globals have already been assigned; the same
    request sent again then finds its pipeline in place: it loads nothing
    and leaves the globals as they are. *)
Theorem failed_probe_leaves_pipeline_installed (w : World) (data : pyval)
    (g : Globals) (ps : Params) f (e : exn) :
  extract_params w data = Ok ps ->
  truthy (p_text ps) = true ->
  needs_reload g (p_lang ps) = true ->
  kokoro_model w (p_lang ps) = Ok f ->
  torch_cuda_is_available w = Raise e ->
  exists g1,
    g1 = mkGlobals (Some (mkPipeline (p_lang ps) f))
                   (Some (get_supported_voices (p_lang ps))) /\
    create_speech w data g
    = (Ok (error_response (exn_str e) 500), g1, [EvLoad (p_lang ps)]) /\
    (forall r g2 t,
       create_speech w data g1 = (r, g2, t) ->
       g2 = g1 /\ forall ev, In ev t -> is_load ev = false).
Proof.
  intros Hps Ht Hn Hk Hprobe. eexists. split; [ reflexivity | ]. split.
  - apply (create_speech_reconcile_raise w data g ps e _ _ Hps Ht).
    rewrite reconcile_run, Hn, load_pipeline_run, Hk, Hprobe. reflexivity.
  - intros r g2 t. apply no_reload_run.
    intros ps' Hps' _. assert (ps' = ps) by congruence. subst ps'.
    unfold needs_reload. simpl. now rewrite String.eqb_refl.
Qed.

Lemma failed_probe_leaves_pipeline_installed_witness :
  exists g1,
    g1 = mkGlobals (Some (mkPipeline "a" (demo_model "a")))
                   (Some (get_supported_voices "a")) /\
    create_speech world_with_failing_probe request_hi initial_globals
    = (Ok (error_response (exn_str probe_error) 500), g1, [EvLoad "a"]) /\
    (forall r g2 t,
       create_speech world_with_failing_probe request_hi g1 = (r, g2, t) ->
       g2 = g1 /\ forall ev, In ev t -> is_load ev = false).
Proof.
  apply (failed_probe_leaves_pipeline_installed world_with_failing_probe
           request_hi initial_globals
           (mkParams (PStr "hi") (PStr "af_heart") "a" (PStr "mp3") f64_one)
           (demo_model "a") probe_error); reflexivity.
Defined.

(** X12.  Run, with nothing overlapping it, from globals that hold a voice
    list and a pipeline bound to the language the request resolves to, the
    handler loads nothing and leaves the globals as they are, whatever its
    outcome. *)
Theorem matching_pipeline_needs_no_reload (w : World) (data : pyval)
    (g : Globals) (ps : Params) (p : Pipeline) (vs : list string) r g1 t :
  extract_params w data = Ok ps ->
  tts_pipeline g = Some p ->
  lang_code p = p_lang ps ->
  supported_voices g = Some vs ->
  create_speech w data g = (r, g1, t) ->
  g1 = g /\ forall ev, In ev t -> is_load ev = false.
Proof.
  intros Hps Hp Hl Hvs Hrun.
  apply (no_reload_run w data g r g1 t); trivial.
  intros ps' Hps' _. assert (ps' = ps) by congruence. subst ps'.
  unfold needs_reload. rewrite Hvs, Hp, Hl. now rewrite String.eqb_refl.
Qed.

Lemma matching_pipeline_needs_no_reload_witness :
  demo_loaded "b" = demo_loaded "b" /\
  forall ev, In ev [] -> is_load ev = false.
Proof.
  apply (matching_pipeline_needs_no_reload demo_world
           (PDict [("input", PStr "hi"); ("voice", PStr "b.nobody")])
           (demo_loaded "b")
           (mkParams (PStr "hi") (PStr "nobody") "b" (PStr "mp3") f64_one)
           (demo_pipeline "b") (get_supported_voices "b")
           (Ok (error_response
                  (voice_error demo_world (PStr "nobody") "b"
                               (get_supported_voices "b")) 400))
           (demo_loaded "b") []); reflexivity.
Defined.

(* ================================================================== *)
(** ** [generate_speech] on its own *)

Lemma generate_speech_unloaded (w : World) text voice lang fmt speed
    (g : Globals) :
  tts_pipeline g = None ->
  generate_speech w text voice lang fmt speed g =
    match kokoro_model w lang with
    | Raise e => (Raise e, g, [EvLoad lang])
    | Ok f =>
        let g0 := mkGlobals (Some (mkPipeline lang f))
                            (Some (get_supported_voices lang)) in
        match torch_cuda_is_available w with
        | Raise e => (Raise e, g0, [EvLoad lang])
        | Ok _ =>
            let '(r, g1, t) := generate_speech w text voice lang fmt speed g0 in
            (r, g1, EvLoad lang :: t)
        end
    end.
Proof.
  intros Hp.
  destruct (kokoro_model w lang) as [f | e] eqn:Hk.
  2:{ unfold generate_speech. run_monad. rewrite Hp, load_pipeline_run, Hk.
      reflexivity. }
  cbv zeta.
  rewrite (generate_speech_loaded w text voice lang fmt speed
             (mkGlobals (Some (mkPipeline lang f))
                        (Some (get_supported_voices lang)))
             (mkPipeline lang f) eq_refl).
  unfold generate_speech. run_monad. rewrite Hp, load_pipeline_run, Hk.
  cbv zeta. destruct (torch_cuda_is_available w) as [b | e]; [ | reflexivity ].
  cbn [tts_pipeline].
  destruct (pipeline_call (mkPipeline lang f) text voice speed) as [segs | e];
    [ | reflexivity ].
  destruct (combine_segments segs) as [combined | e]; [ | reflexivity ].
  destruct (convert_audio_format_run w combined 24000 fmt
              (mkGlobals (Some (mkPipeline lang f))
                         (Some (get_supported_voices lang)))) as [enc He].
  rewrite He. destruct enc; reflexivity.
Qed.

Lemma generate_speech_loaded_trace (w : World) text voice lang fmt speed
    (g : Globals) (p : Pipeline) r g1 t :
  tts_pipeline g = Some p ->
  generate_speech w text voice lang fmt speed g = (r, g1, t) ->
  g1 = g /\
  (t = [EvSynth p text voice lang speed] \/
   exists combined,
     t = [EvSynth p text voice lang speed; EvConvert combined 24000 fmt]).
Proof.
  intros Hp. rewrite (generate_speech_loaded w text voice lang fmt speed g p Hp).
  destruct (pipeline_call p text voice speed) as [segs | e].
  2:{ intros H; inversion H; auto. }
  destruct (combine_segments segs) as [combined | e].
  2:{ intros H; inversion H; auto. }
  destruct (convert_audio_format_run w combined 24000 fmt g) as [enc He].
  rewrite He. intros H; inversion H; subst. split; trivial. right. eauto.
Qed.

(** X13.  With a pipeline in place, [generate_speech] invokes that pipeline
    whatever language it is asked for: it does not compare the language of
    the pipeline with its [lang_code] argument, loads nothing and leaves the
    globals as they are. *)
Theorem generate_speech_keeps_pipeline_in_place (w : World) text voice lang
    fmt speed (g : Globals) (p : Pipeline) r g1 t :
  tts_pipeline g = Some p ->
  generate_speech w text voice lang fmt speed g = (r, g1, t) ->
  g1 = g /\
  (forall ev, In ev t -> is_load ev = false) /\
  exists rest, t = EvSynth p text voice lang speed :: rest.
Proof.
  intros Hp Hrun.
  destruct (generate_speech_loaded_trace _ _ _ _ _ _ _ _ _ _ _ Hp Hrun)
    as [Hg [-> | (c & ->)]]; repeat split; trivial; eauto.
  - intros ev [<- | []]. reflexivity.
  - intros ev [<- | [<- | []]]; reflexivity.
Qed.

Lemma generate_speech_keeps_pipeline_in_place_witness :
  demo_loaded "b" = demo_loaded "b" /\
  (forall ev,
     In ev [EvSynth (demo_pipeline "b") (PStr "hi") (PStr "af_heart") "a" f64_one;
            EvConvert (np_concatenate demo_segments) 24000 (PStr "mp3")] ->
     is_load ev = false) /\
  exists rest,
    [EvSynth (demo_pipeline "b") (PStr "hi") (PStr "af_heart") "a" f64_one;
     EvConvert (np_concatenate demo_segments) 24000 (PStr "mp3")]
    = EvSynth (demo_pipeline "b") (PStr "hi") (PStr "af_heart") "a" f64_one :: rest.
Proof.
  apply (generate_speech_keeps_pipeline_in_place demo_world (PStr "hi")
           (PStr "af_heart") "a" (PStr "mp3") f64_one (demo_loaded "b")
           (demo_pipeline "b")
           (Ok ([Byte.x49; Byte.x44; Byte.x33], PStr "mp3"))
           (demo_loaded "b")); reflexivity.
Defined.

(** X14.  With no pipeline in place, [generate_speech] first loads one for
    its [lang_code] argument.  If the load raises, so does it, and the
    pipeline is not invoked; otherwise the pipeline invoked is the one just
    built, bound to that language and left in the global. *)
Theorem generate_speech_loads_when_empty (w : World) text voice lang fmt
    speed (g : Globals) r g1 t :
  tts_pipeline g = None ->
  generate_speech w text voice lang fmt speed g = (r, g1, t) ->
  exists rest,
    t = EvLoad lang :: rest /\
    ((rest = [] /\ exists e, r = Raise e) \/
     (exists f rest',
        kokoro_model w lang = Ok f /\
        rest = EvSynth (mkPipeline lang f) text voice lang speed :: rest' /\
        g1 = mkGlobals (Some (mkPipeline lang f))
                       (Some (get_supported_voices lang)))).
Proof.
  intros Hp. rewrite (generate_speech_unloaded w text voice lang fmt speed g Hp).
  destruct (kokoro_model w lang) as [f | e].
  2:{ intros H; inversion H; subst. exists []. split; trivial. left. eauto. }
  cbv zeta. destruct (torch_cuda_is_available w) as [b | e].
  2:{ intros H; inversion H; subst. exists []. split; trivial. left. eauto. }
  destruct (generate_speech w text voice lang fmt speed _) as [[r0 g0] t0] eqn:Hrun.
  intros H; inversion H; subst. exists t0. split; trivial. right.
  assert (Hp0 : tts_pipeline (mkGlobals (Some (mkPipeline lang f))
                                        (Some (get_supported_voices lang)))
                = Some (mkPipeline lang f)) by reflexivity.
  destruct (generate_speech_loaded_trace _ _ _ _ _ _ _ _ _ _ _ Hp0 Hrun)
    as [Hg [-> | (c & ->)]]; exists f; eexists; repeat split; trivial.
Qed.

Lemma generate_speech_loads_when_empty_witness :
  exists rest,
    [EvLoad "b"] = EvLoad "b" :: rest /\
    ((rest = [] /\ exists e, @Raise (bytes * pyval) no_kokoro = Raise e) \/
     (exists f rest',
        kokoro_model world_without_kokoro "b" = Ok f /\
        rest = EvSynth (mkPipeline "b" f) (PStr "hi") (PStr "en_male_1") "b"
                       f64_one :: rest' /\
        initial_globals
        = mkGlobals (Some (mkPipeline "b" f)) (Some (get_supported_voices "b")))).
Proof.
  apply (generate_speech_loads_when_empty world_without_kokoro (PStr "hi")
           (PStr "en_male_1") "b" (PStr "mp3") f64_one initial_globals
           (Raise no_kokoro) initial_globals); reflexivity.
Defined.




(* ================================================================== *)
(** ** The converter, format by format *)

Lemma convert_audio_format_table (w : World) (a : Audio) (rate : Z)
    (fmt : pyval) (g : Globals) :
  convert_audio_format w a rate fmt g
  = (encoding w (samples_of a) rate fmt, g, [EvConvert a rate fmt]).
Proof.
  unfold convert_audio_format, encoding. run_monad.
  assert (Hs : samples_of (match a with
                           | Tensor s => NdArray s
                           | NdArray s => NdArray s
                           end) = samples_of a) by (destruct a; reflexivity).
  rewrite Hs. clear Hs. generalize (samples_of a). intros samples.
  destruct fmt;
    try (simpl; destruct (encode_mp3 w samples rate); reflexivity).
  cbn [in_strs existsb SUPPORTED_FORMATS eq_str].
  destruct (String.eqb_spec s "mp3") as [-> | Hmp3];
    [ simpl; destruct (encode_mp3 w samples rate); reflexivity | ].
  destruct (String.eqb_spec s "opus") as [-> | Hopus];
    [ simpl; destruct (encode_opus w samples rate); reflexivity | ].
  destruct (String.eqb_spec s "aac") as [-> | Haac];
    [ simpl; destruct (sf_write w samples rate (PStr "aac")); reflexivity | ].
  destruct (String.eqb_spec s "flac") as [-> | Hflac];
    [ simpl; destruct (sf_write w samples rate (PStr "flac")); reflexivity | ].
  destruct (String.eqb_spec s "wav") as [-> | Hwav];
    [ simpl; destruct (sf_write w samples rate (PStr "wav")); reflexivity | ].
  destruct (String.eqb_spec s "pcm") as [-> | Hpcm];
    [ reflexivity | ].
  simpl. destruct (encode_mp3 w samples rate); reflexivity.
Qed.


(* ================================================================== *)
(** ** Raw PCM of several segments *)

Lemma pcm_bytes_app (w : World) (a b : list spec_float) :
  pcm_bytes w (a ++ b) = (pcm_bytes w a ++ pcm_bytes w b)%list.
Proof. unfold pcm_bytes. apply flat_map_app. Qed.

Lemma pcm_bytes_concat (w : World) (ls : list (list spec_float)) :
  pcm_bytes w (List.concat ls) = List.concat (map (pcm_bytes w) ls).
Proof.
  induction ls as [ | l ls IH]; [ reflexivity | ].
  cbn [List.concat map]. rewrite pcm_bytes_app, IH. reflexivity.
Qed.

(** X17.  Raw PCM goes segment by segment: when the pipeline in place yields
    at least one segment, [generate_speech] with the format ["pcm"] returns
    the PCM bytes of the first segment followed by those of the second, and
    so on, [2 * (n1 + ... + nk)] bytes in all. *)
Theorem pcm_of_segments_is_segmentwise (w : World) text voice lang speed
    (g : Globals) (p : Pipeline) (segs : list Audio) :
  tts_pipeline g = Some p ->
  pipeline_call p text voice speed = Ok segs ->
  segs <> [] ->
  exists out rest,
    generate_speech w text voice lang (PStr "pcm") speed g
    = (Ok (out, PStr "pcm"), g, EvSynth p text voice lang speed :: rest) /\
    out = List.concat (map (fun a => pcm_bytes w (samples_of a)) segs) /\
    List.length out = (2 * list_sum (map sample_count segs))%nat.
Proof.
  intros Hp Hcall Hne.
  assert (Hn : (1 <= List.length segs)%nat).
  { destruct segs; [ congruence | simpl; lia ]. }
  destruct (combine_segments_nonempty segs Hn) as (combined & Hc & Hs).
  exists (pcm_bytes w (samples_of combined)). eexists. split; [ | split ].
  - rewrite (generate_speech_loaded w text voice lang _ speed g p Hp).
    rewrite Hcall, Hc, convert_audio_format_pcm. reflexivity.
  - rewrite Hs, pcm_bytes_concat, map_map. reflexivity.
  - rewrite pcm_bytes_length, Hs, concat_sample_count. reflexivity.
Qed.

Lemma pcm_of_segments_is_segmentwise_witness :
  exists out rest,
    generate_speech demo_world (PStr "hi") (PStr "af_heart") "a" (PStr "pcm")
                    f64_one (demo_loaded "a")
    = (Ok (out, PStr "pcm"), demo_loaded "a",
       EvSynth (demo_pipeline "a") (PStr "hi") (PStr "af_heart") "a" f64_one
       :: rest) /\
    out = List.concat (map (fun a => pcm_bytes demo_world (samples_of a))
                           demo_segments) /\
    List.length out = (2 * list_sum (map sample_count demo_segments))%nat.
Proof.
  apply (pcm_of_segments_is_segmentwise demo_world (PStr "hi") (PStr "af_heart")
           "a" f64_one (demo_loaded "a") (demo_pipeline "a") demo_segments);
    [ reflexivity | reflexivity | discriminate ].
Defined.

(* ================================================================== *)
(** ** [GET /health] and the start of the process *)

Lemma get_supported_voices_nonempty (lang : string) :
  get_supported_voices lang <> [].
Proof.
  unfold get_supported_voices. destruct (String.eqb lang "a"); discriminate.
Qed.

(** X18.  [GET /health] always answers 200 and invokes nothing.  The voices
    it reports are the list held, or the list of the default language when
    none was held, which it then stores; it leaves the pipeline untouched,
    and asked again it gives the same answer and changes nothing more.  In a
    consistent state the reported list is not empty. *)
Theorem health_check_reports_voices (g : Globals) :
  exists body vs g1,
    health_check g = (Ok (JsonResponse body 200), g1, []) /\
    get body "supported_voices" PNone = Ok (PList (map PStr vs)) /\
    vs = match supported_voices g with
         | Some l => l
         | None => get_supported_voices DEFAULT_LANG_CODE
         end /\
    tts_pipeline g1 = tts_pipeline g /\
    supported_voices g1 = Some vs /\
    health_check g1 = (Ok (JsonResponse body 200), g1, []) /\
    (consistent g -> vs <> []).
Proof.
  rewrite health_check_run. cbv zeta.
  destruct (supported_voices g) as [l | ] eqn:Hvs.
  - eexists. exists l, g. split; [ reflexivity | ].
    rewrite Hvs. repeat split; trivial.
    + rewrite health_check_run, Hvs. cbv zeta. rewrite Hvs. reflexivity.
    + intros [_ H2]. destruct (H2 l Hvs) as [lang ->].
      apply get_supported_voices_nonempty.
  - eexists. exists (get_supported_voices DEFAULT_LANG_CODE). eexists.
    split; [ reflexivity | ]. repeat split.
    intros _. apply get_supported_voices_nonempty.
Qed.

(** X19.  The pre-load of the main block never raises, whether or not the
    model can be built, and leaves consistent globals.  After it a request
    needs no reload exactly when it resolves to the default language and the
    model of that language was built; in all other cases the first speech
    request has to load. *)
Theorem main_preload_never_fails (w : World) :
  exists g,
    main_preload w initial_globals = (Ok tt, g, [EvLoad DEFAULT_LANG_CODE]) /\
    consistent g /\
    (forall lang,
       needs_reload g lang = false <->
       (lang = DEFAULT_LANG_CODE /\
        exists f, kokoro_model w DEFAULT_LANG_CODE = Ok f)).
Proof.
  rewrite main_preload_run.
  destruct (kokoro_model w DEFAULT_LANG_CODE) as [f | e] eqn:Hk.
  - eexists. split; [ reflexivity | ]. split; [ apply consistent_loaded | ].
    intros lang. unfold needs_reload. cbn [supported_voices tts_pipeline lang_code].
    rewrite negb_false_iff, String.eqb_eq. split.
    + intros <-. split; eauto.
    + intros [-> _]. reflexivity.
  - eexists. split; [ reflexivity | ]. split; [ apply consistent_initial | ].
    intros lang. simpl. split; [ discriminate | ].
    intros [_ [f Hf]]. discriminate Hf.
Qed.

(* ================================================================== *)
(** ** Voices across languages *)






(* ================================================================== *)
(** ** Two more runs of the handler *)



(** X22.  The bytes of an audio answer are those the encoder of the
    requested format gives, at 24000 Hz, for the samples of all the segments
    the pipeline yielded, end to end; and there was at least one segment. *)
Theorem audio_answer_encodes_all_segments (w : World) (data : pyval)
    (g : Globals) content mimetype name g1 t :
  create_speech w data g = (Ok (FileResponse content mimetype name), g1, t) ->
  exists ps p segs,
    extract_params w data = Ok ps /\
    tts_pipeline g1 = Some p /\
    pipeline_call p (p_text ps) (p_voice ps) (p_speed ps) = Ok segs /\
    segs <> [] /\
    encoding w (List.concat (map samples_of segs)) 24000 (p_format ps)
    = Ok content.
Proof.
  intros Hrun.
  destruct (create_speech_outcome w data g) as (resp & g2 & t2 & Heq & Hout).
  rewrite Heq in Hrun. inversion Hrun; subst resp g2 t2. clear Hrun Heq.
  inversion Hout; subst.
  match goal with
  | H : synthesizing _ _ _ _ _ _ _ |- _ =>
      destruct (synthesizing_inv _ _ _ _ _ _ _ H) as (Hps & Hp & _)
  end.
  exists ps, p, segs.
  assert (Hne : segs <> []) by (eapply combine_segments_ok; eauto).
  assert (Hn : (1 <= List.length segs)%nat).
  { destruct segs; [ congruence | simpl; lia ]. }
  destruct (combine_segments_nonempty segs Hn) as (c & Hc & Hs).
  assert (c = combined) by congruence. subst c.
  repeat split; trivial.
  match goal with
  | H : convert_audio_format _ _ _ _ _ = _ |- _ =>
      rewrite convert_audio_format_table in H; inversion H as [Henc]
  end.
  rewrite <- Hs. rewrite Henc. reflexivity.
Qed.

Lemma audio_answer_encodes_all_segments_witness :
  exists ps p segs,
    extract_params demo_world request_british = Ok ps /\
    tts_pipeline (demo_loaded "b") = Some p /\
    pipeline_call p (p_text ps) (p_voice ps) (p_speed ps) = Ok segs /\
    segs <> [] /\
    encoding demo_world (List.concat (map samples_of segs)) 24000 (p_format ps)
    = Ok [Byte.x49; Byte.x44; Byte.x33].
Proof.
  apply (audio_answer_encodes_all_segments demo_world request_british
           (demo_loaded "a") [Byte.x49; Byte.x44; Byte.x33]
           "audio/mp3" "speech.mp3" (demo_loaded "b")
           [EvLoad "b"; british_pipeline_call;
            EvConvert (np_concatenate demo_segments) 24000 (PStr "mp3")]).
  reflexivity.
Defined.

(* ================================================================== *)
(** ** Requests that overlap *)

(** The cut at the call of [generate_speech] loses nothing: the two parts
    run one after the other are the body of the handler. *)
Lemma create_speech_try_split (w : World) (data : pyval) (g : Globals) :
  create_speech_try w data g =
    (r <- create_speech_before_synthesis w data ;;
     match r with
     | inl resp => ret resp
     | inr ps => create_speech_synthesis w ps
     end) g.
Proof.
  destruct data; try reflexivity.
  unfold create_speech_try, create_speech_before_synthesis,
         create_speech_synthesis.
  cbn [get]. run_monad. cbn beta iota.
  destruct (py_float w _) as [speed | ]; [ | reflexivity ].
  destruct (resolve_language _) as [[lang v] | e']; [ | reflexivity ].
  destruct (negb (truthy _)); [ reflexivity | ].
  destruct ((if needs_reload g lang then load_pipeline w lang
             else fun g0 : Globals => (Ok tt, g0, [])) g) as [[r g1] t1].
  destruct r as [u | e]; [ | reflexivity ].
  unfold voice_unsupported, voices_repr. run_monad. cbn beta iota.
  destruct (supported_voices g1) as [vs | ] eqn:Hsv; [ | reflexivity ].
  cbn beta iota. destruct (negb (in_strs v vs)).
  - rewrite Hsv. simpl. rewrite ?app_nil_r. reflexivity.
  - destruct (negb (in_strs _ SUPPORTED_FORMATS)).
    + simpl. rewrite ?app_nil_r. reflexivity.
    + destruct (preview _); [ | simpl; rewrite ?app_nil_r; reflexivity ].
      cbn [p_text p_voice p_lang p_format p_speed].
      destruct (generate_speech w _ v lang _ speed g1) as [[r2 g2] t2].
      destruct r2 as [[content f] | e]; simpl; rewrite ?app_nil_r; reflexivity.
Qed.

(** With no other request in between, the overlapped run is the handler. *)
Lemma create_speech_overlapped_alone (w : World) (data : pyval) (g : Globals) :
  create_speech_overlapped w data [] g = create_speech w data g.
Proof.
  unfold create_speech_overlapped, create_speech, try_except.
  rewrite create_speech_try_split. unfold bind.
  destruct (create_speech_before_synthesis w data g) as [[r g1] t1].
  destruct r as [[resp | ps] | e]; try reflexivity.
  cbn [handle_all]. unfold ret at 1.
  destruct (create_speech_synthesis w ps g1) as [[r2 g2] t2].
  destruct r2; reflexivity.
Qed.

(** C2, the claim as stated, refuted.  The process holds the pipeline of
    language [a].  A request for the default voice passes the check of line
    243 without a reload and is validated; before it calls
    [generate_speech], a request for [b.en_male_1] is handled and reloads
    the pipeline for [b]; the first request then invokes, at line 107, a
    pipeline bound to [b] although its resolved language is [a].  So it is
    not the case that in every run the pipeline invoked is bound to the
    resolved language. *)
Lemma C2_overlapping_reload_counterexample :
  ~ (forall (w : World) (data : pyval) (others : list Request) (g : Globals)
            resp g1 t p text voice lang speed,
       create_speech_overlapped w data others g = (Ok resp, g1, t) ->
       In (EvSynth p text voice lang speed) t ->
       lang_code p = lang).
Proof.
  intros H.
  specialize (H demo_world request_hi [PostSpeech request_british]
                (demo_loaded "a")
                (FileResponse [Byte.x49; Byte.x44; Byte.x33] "audio/mp3"
                              "speech.mp3")
                (demo_loaded "b")
                [EvLoad "b"; british_pipeline_call;
                 EvConvert (np_concatenate demo_segments) 24000 (PStr "mp3");
                 EvSynth (demo_pipeline "b") (PStr "hi") (PStr "af_heart") "a"
                         f64_one;
                 EvConvert (np_concatenate demo_segments) 24000 (PStr "mp3")]
                (demo_pipeline "b") (PStr "hi") (PStr "af_heart") "a" f64_one
                eq_refl).
  simpl in H. assert (Habs : "b" = "a") by (apply H; auto 6).
  discriminate Habs.
Qed.

(** The same schedule, run: the call made for the first request carries the
    language [a] and reaches the pipeline of [b]. *)
Example overlapping_reload_run :
  create_speech_overlapped demo_world request_hi [PostSpeech request_british]
                           (demo_loaded "a")
  = (Ok (FileResponse [Byte.x49; Byte.x44; Byte.x33] "audio/mp3" "speech.mp3"),
     demo_loaded "b",
     [EvLoad "b"; british_pipeline_call;
      EvConvert (np_concatenate demo_segments) 24000 (PStr "mp3");
      EvSynth (demo_pipeline "b") (PStr "hi") (PStr "af_heart") "a" f64_one;
      EvConvert (np_concatenate demo_segments) 24000 (PStr "mp3")]).
Proof. reflexivity. Qed.

(** The two assignments of a load, one after the other, are the load. *)
Lemma load_pipeline_halves (w : World) (lang : string) (g : Globals) :
  load_pipeline w lang g
  = (load_pipeline_handle w lang ;; load_pipeline_voices w lang) g.
Proof.
  unfold load_pipeline, load_pipeline_handle, load_pipeline_voices, KPipeline.
  run_monad. destruct (kokoro_model w lang); simpl; [ | reflexivity ].
  destruct (torch_cuda_is_available w); reflexivity.
Qed.

(** X23.  A load is two assignments.  After the first, at line 78, the
    globals hold the pipeline of the new language with the voice list that
    was held before.  A request for the new language that is handled from
    those globals finds nothing to reload and changes nothing: if it invokes
    the pipeline, it is the new one, with a voice validated against the old
    list. *)
Theorem mid_load_validates_against_old_voices (w : World) (lang : string)
    (g : Globals) f (vs : list string) :
  kokoro_model w lang = Ok f ->
  supported_voices g = Some vs ->
  exists g',
    load_pipeline_handle w lang g = (Ok tt, g', [EvLoad lang]) /\
    g' = mkGlobals (Some (mkPipeline lang f)) (Some vs) /\
    (forall data ps r g1 t,
       extract_params w data = Ok ps ->
       p_lang ps = lang ->
       create_speech w data g' = (Ok r, g1, t) ->
       g1 = g' /\
       (forall ev, In ev t -> is_load ev = false) /\
       (forall p text voice l speed,
          In (EvSynth p text voice l speed) t ->
          p = mkPipeline lang f /\ exists v, voice = PStr v /\ In v vs)).
Proof.
  intros Hk Hvs. eexists. split; [ | split; [ reflexivity | ] ].
  - unfold load_pipeline_handle, KPipeline. run_monad. rewrite Hk, Hvs.
    reflexivity.
  - intros data ps r g1 t Hps Hl Hrun.
    assert (Hno : g1 = mkGlobals (Some (mkPipeline lang f)) (Some vs) /\
                  forall ev, In ev t -> is_load ev = false).
    { eapply no_reload_run; [ | exact Hrun ].
      intros ps' Hps' _. assert (ps' = ps) by congruence. subst ps'.
      unfold needs_reload. simpl. rewrite Hl. now rewrite String.eqb_refl. }
    destruct Hno as [Hg1 Hload]. split; [ exact Hg1 | ]. split; [ exact Hload | ].
    intros p text voice l speed Hin.
    destruct (create_speech_outcome w data
                (mkGlobals (Some (mkPipeline lang f)) (Some vs)))
      as (resp & g2 & t2 & Heq & Hout).
    rewrite Heq in Hrun. inversion Hrun; subst resp g2 t2. clear Hrun Heq.
    destruct (outcome_synth _ _ _ _ _ _ _ _ _ _ _ Hout Hin)
      as (ps0 & t1 & rest & Hsyn & Hev & _).
    unfold synth_event in Hev. inversion Hev; subst text voice l speed.
    destruct Hsyn as [(vs0 & (_ & _ & _ & _ & Hvs0) & Hvoice) (_ & _ & Hp)].
    rewrite Hg1 in Hvs0, Hp. simpl in Hvs0, Hp.
    inversion Hvs0; subst vs0. inversion Hp; subst p.
    split; trivial. apply in_strs_In in Hvoice. exact Hvoice.
Qed.

Lemma mid_load_validates_against_old_voices_witness :
  exists g',
    load_pipeline_handle demo_world "b" (demo_loaded "a")
    = (Ok tt, g', [EvLoad "b"]) /\
    g' = mkGlobals (Some (mkPipeline "b" (demo_model "b")))
                   (Some (get_supported_voices "a")) /\
    (forall data ps r g1 t,
       extract_params demo_world data = Ok ps ->
       p_lang ps = "b" ->
       create_speech demo_world data g' = (Ok r, g1, t) ->
       g1 = g' /\
       (forall ev, In ev t -> is_load ev = false) /\
       (forall p text voice l speed,
          In (EvSynth p text voice l speed) t ->
          p = mkPipeline "b" (demo_model "b") /\
          exists v, voice = PStr v /\ In v (get_supported_voices "a"))).
Proof.
  apply (mid_load_validates_against_old_voices demo_world "b" (demo_loaded "a")
           (demo_model "b") (get_supported_voices "a")); reflexivity.
Defined.

(** Handled from the globals of a load of [b] caught between its two
    assignments, [b.af_heart] is synthesized by the pipeline of [b], while
    from consistent globals no voice of the default language is. *)
Example mid_load_run :
  create_speech demo_world
                (PDict [("input", PStr "hi"); ("voice", PStr "b.af_heart")])
                (mkGlobals (Some (demo_pipeline "b"))
                           (Some (get_supported_voices "a")))
  = (Ok (FileResponse [Byte.x49; Byte.x44; Byte.x33] "audio/mp3" "speech.mp3"),
     mkGlobals (Some (demo_pipeline "b")) (Some (get_supported_voices "a")),
     [EvSynth (demo_pipeline "b") (PStr "hi") (PStr "af_heart") "b" f64_one;
      EvConvert (np_concatenate demo_segments) 24000 (PStr "mp3")]).
Proof. reflexivity. Qed.
